(** * EcoFinds marketplace: the client-side data and auth layer

    A shallow embedding of [src/lib/data.ts] (storage adapter, identifier
    generator, [authService], [productService], [cartService],
    [purchaseService]) and of the [AuthManager] of [src/lib/auth.ts], with
    the properties the specification states about them.

    Conventions of the embedding.
    - A JavaScript [number] is an IEEE-754 binary64 value: Rocq's primitive
      [float], with its own [+] and [*]. A field a record declares as
      [number] holds, once the record was read back from storage, a number
      or [null] ([JSnumber]); arithmetic takes [null] for 0, as JavaScript
      does.
    - A string is kept as the bytes of its UTF-8 encoding; the bytes below
      128 are the ASCII characters. [toLowerCase] folds the letters A-Z of
      an ASCII text; on any other text it is the Unicode case mapping of the
      platform, which the world carries.
    - A timestamp is the string [new Date().toISOString()] writes; the model
      keeps the instant it denotes, in milliseconds since the epoch, which is
      what [new Date(s).getTime()] reads back from it.
    - [localStorage] holds one JSON document per key; the model keeps, for
      each key, a value that document is the JSON text of ([None]: the key is
      absent or does not parse). [JSON.stringify] followed by [JSON.parse]
      carries strings, booleans and finite numbers unchanged, except that -0
      comes back as 0; NaN and the infinities come back as [null]
      ([as_JSON]). Writes keep what [JSON.stringify] writes, reads give what
      [JSON.parse] reads, and [setItem] is taken to succeed.
    - [generateId()] and [new Date()] read the environment: the world carries
      the sequence of values they will return and how many were drawn.
    - The [async] functions never suspend; a rejected promise is a thrown
      [Error], and the state reached when it is thrown is kept. *)

From Stdlib Require Import ZArith String Ascii List PrimFloat FloatClass.
From stdpp Require Import base option list strings sorting.

Local Open Scope string_scope.
Local Open Scope list_scope.

(** ** Types ([src/types/index.ts]) *)

Definition timestamp := Z.

(** What a [number] field holds at run time: a number, or [null] in a
    record read back from JSON. *)
Inductive JSnumber :=
  | num (x : float)
  | null.

(** [ToNumber]: what [+], [*] and [<=] make of the value. *)
Definition ToNumber (v : JSnumber) : float :=
  match v with
  | num x => x
  | null => 0%float
  end.

(** [JSON.parse(JSON.stringify(v))] on a number or [null]: NaN and the
    infinities are written as [null], -0 as [0], and every other number with
    digits that read back as the same number. *)
Definition JSON_number (v : JSnumber) : JSnumber :=
  match v with
  | num x =>
      match classify x with
      | NaN | PInf | NInf => null
      | NZero => num 0%float
      | _ => num x
      end
  | null => null
  end.

Inductive ProductCategory :=
  | electronics | fashion | home_garden | sports_outdoors | books_media
  | toys_games | automotive | health_beauty | other.

(** The string each category is at run time. *)
Definition category_name (c : ProductCategory) : string :=
  match c with
  | electronics => "electronics"
  | fashion => "fashion"
  | home_garden => "home-garden"
  | sports_outdoors => "sports-outdoors"
  | books_media => "books-media"
  | toys_games => "toys-games"
  | automotive => "automotive"
  | health_beauty => "health-beauty"
  | other => "other"
  end.

Inductive PurchaseStatus :=
  | pending | confirmed | shipped | delivered | completed | cancelled.

Module User.
Record t := mk {
  id : string;
  email : string;
  username : string;
  password : string;
  bio : option string;
  avatarUrl : option string;
  createdAt : timestamp;
  updatedAt : timestamp
}.

(** [Partial<User>]: [None] is a property the object does not have. *)
Record partial := mkPartial {
  id' : option string;
  email' : option string;
  username' : option string;
  password' : option string;
  bio' : option (option string);
  avatarUrl' : option (option string);
  createdAt' : option timestamp;
  updatedAt' : option timestamp
}.

(** [{ ...user, ...updates }] *)
Definition spread (user : t) (updates : partial) : t :=
  {| id := default (id user) (id' updates);
     email := default (email user) (email' updates);
     username := default (username user) (username' updates);
     password := default (password user) (password' updates);
     bio := default (bio user) (bio' updates);
     avatarUrl := default (avatarUrl user) (avatarUrl' updates);
     createdAt := default (createdAt user) (createdAt' updates);
     updatedAt := default (updatedAt user) (updatedAt' updates) |}.

Definition with_updatedAt (user : t) (now : timestamp) : t :=
  {| id := id user; email := email user; username := username user;
     password := password user; bio := bio user; avatarUrl := avatarUrl user;
     createdAt := createdAt user; updatedAt := now |}.

End User.

Module AuthUser.
Record t := mk {
  id : string;
  email : string;
  username : string;
  bio : option string;
  avatarUrl : option string
}.

(** [Partial<AuthUser>] *)
Record partial := mkPartial {
  id' : option string;
  email' : option string;
  username' : option string;
  bio' : option (option string);
  avatarUrl' : option (option string)
}.

End AuthUser.

Module Product.
Record t := mk {
  id : string;
  sellerId : string;
  title : string;
  description : string;
  price : JSnumber;
  category : ProductCategory;
  imageUrl : string;
  isAvailable : bool;
  createdAt : timestamp;
  updatedAt : timestamp
}.

(** [JSON.parse(JSON.stringify(product))] *)
Definition as_JSON (product : t) : t :=
  {| id := id product; sellerId := sellerId product; title := title product;
     description := description product; price := JSON_number (price product);
     category := category product; imageUrl := imageUrl product;
     isAvailable := isAvailable product; createdAt := createdAt product;
     updatedAt := updatedAt product |}.

(** [Omit<Product, 'id' | 'createdAt' | 'updatedAt'>] *)
Record data := mkData {
  sellerId_ : string;
  title_ : string;
  description_ : string;
  price_ : float;
  category_ : ProductCategory;
  imageUrl_ : string;
  isAvailable_ : bool
}.

(** [Partial<Product>]: [None] is a property the object does not have. *)
Record partial := mkPartial {
  id' : option string;
  sellerId' : option string;
  title' : option string;
  description' : option string;
  price' : option float;
  category' : option ProductCategory;
  imageUrl' : option string;
  isAvailable' : option bool;
  createdAt' : option timestamp;
  updatedAt' : option timestamp
}.

(** [{ ...product, ...updates }] *)
Definition spread (product : t) (updates : partial) : t :=
  {| id := default (id product) (id' updates);
     sellerId := default (sellerId product) (sellerId' updates);
     title := default (title product) (title' updates);
     description := default (description product) (description' updates);
     price := from_option num (price product) (price' updates);
     category := default (category product) (category' updates);
     imageUrl := default (imageUrl product) (imageUrl' updates);
     isAvailable := default (isAvailable product) (isAvailable' updates);
     createdAt := default (createdAt product) (createdAt' updates);
     updatedAt := default (updatedAt product) (updatedAt' updates) |}.

Definition with_updatedAt (product : t) (now : timestamp) : t :=
  {| id := id product; sellerId := sellerId product; title := title product;
     description := description product; price := price product;
     category := category product; imageUrl := imageUrl product;
     isAvailable := isAvailable product; createdAt := createdAt product;
     updatedAt := now |}.

End Product.

Module Seller.
Record t := mk { id : string; username : string }.
End Seller.

Module ProductWithSeller.
(** [interface ProductWithSeller extends Product] *)
Record t := mk { product : Product.t; seller : Seller.t }.
End ProductWithSeller.

Module CartItem.
Record t := mk {
  id : string;
  userId : string;
  productId : string;
  quantity : JSnumber;
  addedAt : timestamp
}.

(** [JSON.parse(JSON.stringify(item))] *)
Definition as_JSON (item : t) : t :=
  {| id := id item; userId := userId item; productId := productId item;
     quantity := JSON_number (quantity item); addedAt := addedAt item |}.
End CartItem.

Module CartItemWithProduct.
(** [interface CartItemWithProduct extends CartItem] *)
Record t := mk { item : CartItem.t; product : ProductWithSeller.t }.
End CartItemWithProduct.

Module Purchase.
Record t := mk {
  id : string;
  buyerId : string;
  sellerId : string;
  productId : string;
  quantity : JSnumber;
  totalPrice : JSnumber;
  purchaseDate : timestamp;
  status : PurchaseStatus
}.

(** [JSON.parse(JSON.stringify(purchase))] *)
Definition as_JSON (purchase : t) : t :=
  {| id := id purchase; buyerId := buyerId purchase; sellerId := sellerId purchase;
     productId := productId purchase; quantity := JSON_number (quantity purchase);
     totalPrice := JSON_number (totalPrice purchase);
     purchaseDate := purchaseDate purchase; status := status purchase |}.
End Purchase.

Module PurchaseWithDetails.
(** [interface PurchaseWithDetails extends Purchase] *)
Record t := mk { purchase : Purchase.t; product : Product.t; seller : Seller.t }.
End PurchaseWithDetails.

(** ** The world: browser storage, identifier source and clock *)

Record Storage := mkStorage {
  ecofinds_users : option (list User.t);
  ecofinds_products : option (list Product.t);
  ecofinds_cart : option (list CartItem.t);
  ecofinds_purchases : option (list Purchase.t);
  ecofinds_current_user : option AuthUser.t;
  ecofinds_auth_token : option string
}.

Record World := mkWorld {
  (** [typeof window !== 'undefined'] *)
  window_defined : bool;
  localStorage : Storage;
  (** the values [generateId()] returns, and how many were drawn *)
  id_source : nat → string;
  ids_drawn : nat;
  (** the instants [new Date()] reads, and how many were read *)
  clock : nat → timestamp;
  clock_reads : nat;
  (** [String.prototype.toLowerCase] on a text that is not ASCII throughout:
      the Unicode case mapping of the platform *)
  Unicode_toLowerCase : string → string
}.

Definition with_localStorage (s : Storage) (w : World) : World :=
  {| window_defined := window_defined w; localStorage := s;
     id_source := id_source w; ids_drawn := ids_drawn w;
     clock := clock w; clock_reads := clock_reads w;
     Unicode_toLowerCase := Unicode_toLowerCase w |}.

(** ** Errors and the monad of the services *)

Record Error := mkError { message : string }.

Definition InvalidCredentials : Error := mkError "Invalid credentials".
Definition DuplicateEmail : Error := mkError "User with this email already exists".
Definition DuplicateUsername : Error := mkError "Username is already taken".
Definition UserNotFound : Error := mkError "User not found".
Definition ProductNotFound : Error := mkError "Product not found".
Definition ReferenceError : Error := mkError "localStorage is not defined".
Definition NotAuthenticated : Error := mkError "User not authenticated".
Definition AuthenticationRequired : Error := mkError "Authentication required".

Inductive Result (A : Type) :=
  | Ok (a : A)
  | Throw (e : Error).
Arguments Ok {A} a.
Arguments Throw {A} e.

Definition M (A : Type) : Type := World → Result A * World.

Global Instance M_ret : MRet M := λ A a w, (Ok a, w).
Global Instance M_bind : MBind M := λ A B f m w,
  match m w with
  | (Ok a, w') => f a w'
  | (Throw e, w') => (Throw e, w')
  end.

Definition throw {A} (e : Error) : M A := λ w, (Throw e, w).

Definition result {A} (m : M A) (w : World) : Result A := (m w).1.
Definition after {A} (m : M A) (w : World) : World := (m w).2.

(** ** Storage adapter ([getFromStorage], [saveToStorage]) *)

(** A storage key, typed by the collection kept under it; [as_JSON] is
    [JSON.parse(JSON.stringify(data))] on a value of that type. Users, the
    session and the token hold strings only, which JSON carries as they
    are. *)
Record Key (T : Type) := mkKey {
  key_name : string;
  getItem : Storage → option T;
  setItem : option T → Storage → Storage;
  as_JSON : T → T
}.
Arguments key_name {T} k.
Arguments getItem {T} k s.
Arguments setItem {T} k v s.
Arguments as_JSON {T} k data.

Module STORAGE_KEYS.
Definition users : Key (list User.t) :=
  mkKey _ "ecofinds_users" ecofinds_users
    (λ v s, mkStorage v (ecofinds_products s) (ecofinds_cart s)
              (ecofinds_purchases s) (ecofinds_current_user s) (ecofinds_auth_token s))
    (λ users, users).
Definition products : Key (list Product.t) :=
  mkKey _ "ecofinds_products" ecofinds_products
    (λ v s, mkStorage (ecofinds_users s) v (ecofinds_cart s)
              (ecofinds_purchases s) (ecofinds_current_user s) (ecofinds_auth_token s))
    (fmap Product.as_JSON).
Definition cart : Key (list CartItem.t) :=
  mkKey _ "ecofinds_cart" ecofinds_cart
    (λ v s, mkStorage (ecofinds_users s) (ecofinds_products s) v
              (ecofinds_purchases s) (ecofinds_current_user s) (ecofinds_auth_token s))
    (fmap CartItem.as_JSON).
Definition purchases : Key (list Purchase.t) :=
  mkKey _ "ecofinds_purchases" ecofinds_purchases
    (λ v s, mkStorage (ecofinds_users s) (ecofinds_products s) (ecofinds_cart s)
              v (ecofinds_current_user s) (ecofinds_auth_token s))
    (fmap Purchase.as_JSON).
Definition currentUser : Key AuthUser.t :=
  mkKey _ "ecofinds_current_user" ecofinds_current_user
    (λ v s, mkStorage (ecofinds_users s) (ecofinds_products s) (ecofinds_cart s)
              (ecofinds_purchases s) v (ecofinds_auth_token s))
    (λ user, user).
Definition authToken : Key string :=
  mkKey _ "ecofinds_auth_token" ecofinds_auth_token
    (λ v s, mkStorage (ecofinds_users s) (ecofinds_products s) (ecofinds_cart s)
              (ecofinds_purchases s) (ecofinds_current_user s) v)
    (λ token, token).
End STORAGE_KEYS.

Definition APP_CONFIG_defaultAvatarImage : string :=
  "https://placehold.co/150x150?text=User+Avatar".

(** Reads never change the world and never throw:
    [item ? JSON.parse(item) : defaultValue]. *)
Definition readStorage {T} (key : Key T) (defaultValue : T) (w : World) : T :=
  if window_defined w
  then from_option (as_JSON key) defaultValue (getItem key (localStorage w))
  else defaultValue.

Definition getFromStorage {T} (key : Key T) (defaultValue : T) : M T :=
  λ w, (Ok (readStorage key defaultValue w), w).

(** [localStorage.setItem(key, JSON.stringify(data))] *)
Definition saveToStorage {T} (key : Key T) (data : T) : M unit :=
  λ w, if window_defined w
       then (Ok (),
             with_localStorage (setItem key (Some (as_JSON key data)) (localStorage w)) w)
       else (Ok (), w).

(** [localStorage.getItem] and [localStorage.removeItem] called directly:
    without a [window] the name [localStorage] is not bound. *)
Definition localStorage_getItem {T} (key : Key T) : M (option T) :=
  λ w, if window_defined w then (Ok (getItem key (localStorage w)), w)
       else (Throw ReferenceError, w).

Definition removeItem {T} (key : Key T) : M unit :=
  λ w, if window_defined w
       then (Ok (), with_localStorage (setItem key None (localStorage w)) w)
       else (Throw ReferenceError, w).

Definition generateId : M string :=
  λ w, (Ok (id_source w (ids_drawn w)),
        {| window_defined := window_defined w; localStorage := localStorage w;
           id_source := id_source w; ids_drawn := S (ids_drawn w);
           clock := clock w; clock_reads := clock_reads w;
           Unicode_toLowerCase := Unicode_toLowerCase w |}).

(** [new Date().toISOString()] *)
Definition Date_now : M timestamp :=
  λ w, (Ok (clock w (clock_reads w)),
        {| window_defined := window_defined w; localStorage := localStorage w;
           id_source := id_source w; ids_drawn := ids_drawn w;
           clock := clock w; clock_reads := S (clock_reads w);
           Unicode_toLowerCase := Unicode_toLowerCase w |}).

(** [Array.prototype.find] ([None] for [undefined]). [findIndex] is stdpp's
    [list_find], which gives the index together with the element at it. *)
Definition Array_find {A} (P : A → Prop) `{!∀ x, Decision (P x)} (l : list A) : option A :=
  snd <$> list_find P l.

(** [CATEGORY_PLACEHOLDER_IMAGES] ([src/lib/constants.ts]) *)
Definition CATEGORY_PLACEHOLDER_IMAGES (c : ProductCategory) : string :=
  match c with
  | electronics => "https://placehold.co/400x300?text=Modern+electronic+device+with+sleek+design"
  | fashion => "https://placehold.co/400x300?text=Stylish+fashion+clothing+item+on+display"
  | home_garden => "https://placehold.co/400x300?text=Beautiful+home+decor+and+garden+accessories"
  | sports_outdoors => "https://placehold.co/400x300?text=Professional+sports+equipment+and+outdoor+gear"
  | books_media => "https://placehold.co/400x300?text=Collection+of+books+and+media+items"
  | toys_games => "https://placehold.co/400x300?text=Fun+toys+and+board+games+collection"
  | automotive => "https://placehold.co/400x300?text=Automotive+parts+and+car+accessories"
  | health_beauty => "https://placehold.co/400x300?text=Health+and+beauty+products+display"
  | other => "https://placehold.co/400x300?text=Miscellaneous+items+and+products"
  end.

(** ** Demo data ([initializeDemoData]) *)

Definition seedDemoUsers : M unit :=
  createdAt ← Date_now;
  updatedAt ← Date_now;
  let demoUsers :=
    [ {| User.id := "demo-user-1"; User.email := "demo@ecofinds.com";
         User.username := "EcoWarrior"; User.password := "demo123";
         User.bio := Some "Passionate about sustainable living and finding unique second-hand treasures.";
         User.avatarUrl := Some "https://placehold.co/150x150?text=Eco+Warrior+Avatar";
         User.createdAt := createdAt; User.updatedAt := updatedAt |} ] in
  saveToStorage STORAGE_KEYS.users demoUsers.

Definition seedDemoProducts : M unit :=
  createdAt1 ← Date_now; updatedAt1 ← Date_now;
  createdAt2 ← Date_now; updatedAt2 ← Date_now;
  createdAt3 ← Date_now; updatedAt3 ← Date_now;
  let demoProducts :=
    [ {| Product.id := "demo-product-1"; Product.sellerId := "demo-user-1";
         Product.title := "Vintage Leather Jacket";
         Product.description := "Authentic vintage leather jacket from the 80s. Gently worn with character. Perfect for sustainable fashion lovers.";
         Product.price := num 75%float; Product.category := fashion;
         Product.imageUrl := CATEGORY_PLACEHOLDER_IMAGES fashion;
         Product.isAvailable := true;
         Product.createdAt := createdAt1; Product.updatedAt := updatedAt1 |};
      {| Product.id := "demo-product-2"; Product.sellerId := "demo-user-1";
         Product.title := "iPhone 12 Pro Max";
         Product.description := "Excellent condition iPhone 12 Pro Max, 128GB. Includes charger and protective case. Battery health at 89%.";
         Product.price := num 425%float; Product.category := electronics;
         Product.imageUrl := CATEGORY_PLACEHOLDER_IMAGES electronics;
         Product.isAvailable := true;
         Product.createdAt := createdAt2; Product.updatedAt := updatedAt2 |};
      {| Product.id := "demo-product-3"; Product.sellerId := "demo-user-1";
         Product.title := "Ceramic Plant Pot Set";
         Product.description := "Beautiful set of 3 handmade ceramic pots. Perfect for indoor plants and home decoration.";
         Product.price := num 35%float; Product.category := home_garden;
         Product.imageUrl := CATEGORY_PLACEHOLDER_IMAGES home_garden;
         Product.isAvailable := true;
         Product.createdAt := createdAt3; Product.updatedAt := updatedAt3 |} ] in
  saveToStorage STORAGE_KEYS.products demoProducts.

Definition initializeDemoData : M unit :=
  users ← getFromStorage STORAGE_KEYS.users [];
  products ← getFromStorage STORAGE_KEYS.products [];
  (if decide (length users = 0) then seedDemoUsers else mret ());;
  (if decide (length products = 0) then seedDemoProducts else mret ()).

(** ** [authService] *)

Module authService.

Definition toAuthUser (user : User.t) : AuthUser.t :=
  {| AuthUser.id := User.id user;
     AuthUser.email := User.email user;
     AuthUser.username := User.username user;
     AuthUser.bio := User.bio user;
     AuthUser.avatarUrl := User.avatarUrl user |}.

Definition login (email password : string) : M AuthUser.t :=
  users ← getFromStorage STORAGE_KEYS.users [];
  match Array_find (λ u, User.email u = email ∧ User.password u = password) users with
  | None => throw InvalidCredentials
  | Some user =>
      let authUser := toAuthUser user in
      saveToStorage STORAGE_KEYS.currentUser authUser;;
      token ← generateId;
      saveToStorage STORAGE_KEYS.authToken token;;
      mret authUser
  end.

Definition register (email username password : string) : M AuthUser.t :=
  users ← getFromStorage STORAGE_KEYS.users [];
  if decide (is_Some (Array_find (λ u, User.email u = email) users))
  then throw DuplicateEmail
  else if decide (is_Some (Array_find (λ u, User.username u = username) users))
  then throw DuplicateUsername
  else
    id ← generateId;
    createdAt ← Date_now;
    updatedAt ← Date_now;
    let newUser :=
      {| User.id := id; User.email := email; User.username := username;
         User.password := password; User.bio := None;
         User.avatarUrl := Some APP_CONFIG_defaultAvatarImage;
         User.createdAt := createdAt; User.updatedAt := updatedAt |} in
    let users := users ++ [newUser] in
    saveToStorage STORAGE_KEYS.users users;;
    let authUser := toAuthUser newUser in
    saveToStorage STORAGE_KEYS.currentUser authUser;;
    token ← generateId;
    saveToStorage STORAGE_KEYS.authToken token;;
    mret authUser.

(** [localStorage.removeItem] is called unguarded. *)
Definition logout : M unit :=
  removeItem STORAGE_KEYS.currentUser;;
  removeItem STORAGE_KEYS.authToken.

(** [getFromStorage<AuthUser | null>(STORAGE_KEYS.currentUser, null)] *)
Definition getCurrentUser : M (option AuthUser.t) :=
  λ w, (Ok (if window_defined w then getItem STORAGE_KEYS.currentUser (localStorage w)
            else None), w).

(** [!!(token && user)]: the raw item of a present key is a non-empty JSON
    text, and a parsed session is an object. *)
Definition isAuthenticated : M bool :=
  token ← localStorage_getItem STORAGE_KEYS.authToken;
  user ← getCurrentUser;
  mret (bool_decide (is_Some token) && bool_decide (is_Some user)).

(** [user] is [users[userIndex]]. *)
Definition updateProfile (userId : string) (updates : User.partial) : M AuthUser.t :=
  users ← getFromStorage STORAGE_KEYS.users [];
  match list_find (λ u, User.id u = userId) users with
  | None => throw UserNotFound
  | Some (userIndex, user) =>
      now ← Date_now;
      let updated := User.with_updatedAt (User.spread user updates) now in
      let users := <[userIndex := updated]> users in
      saveToStorage STORAGE_KEYS.users users;;
      let updatedAuthUser := toAuthUser updated in
      saveToStorage STORAGE_KEYS.currentUser updatedAuthUser;;
      mret updatedAuthUser
  end.

End authService.

(** ** [productService] *)

(** [s || d] on a string that may be [undefined]. *)
Definition or_else (s : option string) (d : string) : string :=
  match s with
  | Some s' => if decide (s' = "") then d else s'
  | None => d
  end.

(** [Array.prototype.sort(compareFn)]: stable, an element goes before the
    first one it does not compare greater than. *)
Fixpoint sort_insert {A} (compareFn : A → A → Z) (x : A) (l : list A) : list A :=
  match l with
  | [] => [x]
  | y :: l' =>
      if decide (compareFn x y ≤ 0)%Z then x :: y :: l'
      else y :: sort_insert compareFn x l'
  end.

Definition Array_sort {A} (compareFn : A → A → Z) (l : list A) : list A :=
  foldr (sort_insert compareFn) [] l.

(** [String.prototype.toLowerCase]. On a text that is ASCII throughout it
    replaces each of the letters A-Z by its lower-case letter and keeps
    every other character; on any other text it is the Unicode mapping
    [unicode] of the platform. *)
Definition lower_ascii (c : ascii) : ascii :=
  let n := nat_of_ascii c in
  if decide (65 ≤ n ≤ 90)%nat then ascii_of_nat (n + 32) else c.

Fixpoint ASCII_toLowerCase (s : string) : string :=
  match s with
  | EmptyString => EmptyString
  | String c s' => String (lower_ascii c) (ASCII_toLowerCase s')
  end.

Fixpoint is_ASCII (s : string) : bool :=
  match s with
  | EmptyString => true
  | String c s' => (nat_of_ascii c <? 128)%nat && is_ASCII s'
  end.

Definition toLowerCase (unicode : string → string) (s : string) : string :=
  if is_ASCII s then ASCII_toLowerCase s else unicode s.

(** [String.prototype.includes] *)
Fixpoint includes (s searchString : string) : bool :=
  String.prefix searchString s ||
  match s with
  | EmptyString => false
  | String _ s' => includes s' searchString
  end.

(** The method [toLowerCase] of strings, as the platform has it. *)
Definition String_prototype_toLowerCase : M (string → string) :=
  λ w, (Ok (toLowerCase (Unicode_toLowerCase w)), w).

Module productService.

Definition withSeller (users : list User.t) (product : Product.t) : ProductWithSeller.t :=
  let seller := Array_find (λ u, User.id u = Product.sellerId product) users in
  {| ProductWithSeller.product := product;
     ProductWithSeller.seller :=
       {| Seller.id := or_else (User.id <$> seller) "";
          Seller.username := or_else (User.username <$> seller) "Unknown User" |} |}.

Definition newest_first (a b : ProductWithSeller.t) : Z :=
  (Product.createdAt (ProductWithSeller.product b)
   - Product.createdAt (ProductWithSeller.product a))%Z.

Definition getAll : M (list ProductWithSeller.t) :=
  products ← getFromStorage STORAGE_KEYS.products [];
  users ← getFromStorage STORAGE_KEYS.users [];
  mret (Array_sort newest_first
          (withSeller users <$> filter (λ p, Product.isAvailable p = true) products)).

Definition getById (id : string) : M (option ProductWithSeller.t) :=
  products ← getFromStorage STORAGE_KEYS.products [];
  users ← getFromStorage STORAGE_KEYS.users [];
  match Array_find (λ p, Product.id p = id) products with
  | None => mret None
  | Some product => mret (Some (withSeller users product))
  end.

Definition delete (id : string) : M unit :=
  products ← getFromStorage STORAGE_KEYS.products [];
  let updatedProducts := filter (λ p, Product.id p ≠ id) products in
  saveToStorage STORAGE_KEYS.products updatedProducts.

(** [category] is a string at run time; [None] is [undefined].
    [toLowerCase] is the method of the platform. *)
Definition matches (toLowerCase : string → string) (query : string)
    (category : option string) (product : ProductWithSeller.t) : bool :=
  let p := ProductWithSeller.product product in
  let matchesQuery :=
    bool_decide (query = "")
    || includes (toLowerCase (Product.title p)) (toLowerCase query)
    || includes (toLowerCase (Product.description p)) (toLowerCase query) in
  let matchesCategory :=
    bool_decide (category = None ∨ category = Some "")
    || bool_decide (category = Some "all")
    || bool_decide (Some (category_name (Product.category p)) = category) in
  matchesQuery && matchesCategory.

Definition search (query : string) (category : option string) : M (list ProductWithSeller.t) :=
  allProducts ← getAll;
  toLowerCase ← String_prototype_toLowerCase;
  mret (filter (λ product, matches toLowerCase query category product = true) allProducts).

Definition newest_product_first (a b : Product.t) : Z :=
  (Product.createdAt b - Product.createdAt a)%Z.

Definition getByUserId (userId : string) : M (list Product.t) :=
  products ← getFromStorage STORAGE_KEYS.products [];
  mret (Array_sort newest_product_first
          (filter (λ p, Product.sellerId p = userId) products)).

Definition create (productData : Product.data) : M Product.t :=
  products ← getFromStorage STORAGE_KEYS.products [];
  id ← generateId;
  createdAt ← Date_now;
  updatedAt ← Date_now;
  let newProduct :=
    {| Product.id := id; Product.sellerId := Product.sellerId_ productData;
       Product.title := Product.title_ productData;
       Product.description := Product.description_ productData;
       Product.price := num (Product.price_ productData);
       Product.category := Product.category_ productData;
       Product.imageUrl := Product.imageUrl_ productData;
       Product.isAvailable := Product.isAvailable_ productData;
       Product.createdAt := createdAt; Product.updatedAt := updatedAt |} in
  saveToStorage STORAGE_KEYS.products (products ++ [newProduct]);;
  mret newProduct.

(** [product] is [products[productIndex]]. *)
Definition update (id : string) (updates : Product.partial) : M Product.t :=
  products ← getFromStorage STORAGE_KEYS.products [];
  match list_find (λ p, Product.id p = id) products with
  | None => throw ProductNotFound
  | Some (productIndex, product) =>
      now ← Date_now;
      let updated := Product.with_updatedAt (Product.spread product updates) now in
      saveToStorage STORAGE_KEYS.products (<[productIndex := updated]> products);;
      mret updated
  end.

End productService.

(** ** [cartService] *)

Module cartService.

(** [map] to rows whose [product] may be [null], then [filter] on it. *)
Definition getCartItems (userId : string) : M (list CartItemWithProduct.t) :=
  cartItems ← getFromStorage STORAGE_KEYS.cart [];
  let userCartItems := filter (λ item, CartItem.userId item = userId) cartItems in
  rows ← mapM (λ cartItem,
    product ← productService.getById (CartItem.productId cartItem);
    mret (cartItem, product)) userCartItems;
  mret (omap (λ row, CartItemWithProduct.mk row.1 <$> row.2) rows).

Definition add_quantity (item : CartItem.t) (quantity : float) : CartItem.t :=
  {| CartItem.id := CartItem.id item; CartItem.userId := CartItem.userId item;
     CartItem.productId := CartItem.productId item;
     CartItem.quantity := num (ToNumber (CartItem.quantity item) + quantity)%float;
     CartItem.addedAt := CartItem.addedAt item |}.

(** [quantity: number = 1]: [None] is an omitted argument. *)
Definition addToCart (userId productId : string) (quantity : option float) : M CartItem.t :=
  let quantity := default 1%float quantity in
  cartItems ← getFromStorage STORAGE_KEYS.cart [];
  match list_find (λ item, CartItem.userId item = userId ∧ CartItem.productId item = productId)
          cartItems with
  | Some (existingItemIndex, existing) =>
      let updated := add_quantity existing quantity in
      let cartItems := <[existingItemIndex := updated]> cartItems in
      saveToStorage STORAGE_KEYS.cart cartItems;;
      mret updated
  | None =>
      id ← generateId;
      addedAt ← Date_now;
      let newCartItem :=
        {| CartItem.id := id; CartItem.userId := userId; CartItem.productId := productId;
           CartItem.quantity := num quantity; CartItem.addedAt := addedAt |} in
      saveToStorage STORAGE_KEYS.cart (cartItems ++ [newCartItem]);;
      mret newCartItem
  end.

Definition removeFromCart (itemId : string) : M unit :=
  cartItems ← getFromStorage STORAGE_KEYS.cart [];
  let updatedItems := filter (λ item, CartItem.id item ≠ itemId) cartItems in
  saveToStorage STORAGE_KEYS.cart updatedItems.

Definition set_quantity (item : CartItem.t) (quantity : float) : CartItem.t :=
  {| CartItem.id := CartItem.id item; CartItem.userId := CartItem.userId item;
     CartItem.productId := CartItem.productId item;
     CartItem.quantity := num quantity;
     CartItem.addedAt := CartItem.addedAt item |}.

(** [splice(itemIndex, 1)] deletes the element at the index. *)
Definition updateQuantity (itemId : string) (quantity : float) : M unit :=
  cartItems ← getFromStorage STORAGE_KEYS.cart [];
  match list_find (λ item, CartItem.id item = itemId) cartItems with
  | Some (itemIndex, item) =>
      let cartItems :=
        if (quantity <=? 0)%float then delete itemIndex cartItems
        else <[itemIndex := set_quantity item quantity]> cartItems in
      saveToStorage STORAGE_KEYS.cart cartItems
  | None => mret ()
  end.

Definition clearCart (userId : string) : M unit :=
  cartItems ← getFromStorage STORAGE_KEYS.cart [];
  let updatedItems := filter (λ item, CartItem.userId item ≠ userId) cartItems in
  saveToStorage STORAGE_KEYS.cart updatedItems.

(** [reduce((total, item) => ..., 0)] *)
Definition getCartTotal (userId : string) : M float :=
  cartItems ← getCartItems userId;
  mret (foldl (λ total item,
                 (total + ToNumber (Product.price (ProductWithSeller.product
                                                     (CartItemWithProduct.product item)))
                          * ToNumber (CartItem.quantity (CartItemWithProduct.item item)))%float)
          0%float cartItems).

Definition getCartCount (userId : string) : M float :=
  cartItems ← getCartItems userId;
  mret (foldl (λ count item,
                 (count + ToNumber (CartItem.quantity (CartItemWithProduct.item item)))%float)
          0%float cartItems).

End cartService.

(** ** [purchaseService] *)

Module purchaseService.

Definition createPurchase (buyerId productId : string) (quantity : float) : M Purchase.t :=
  purchases ← getFromStorage STORAGE_KEYS.purchases [];
  product ← productService.getById productId;
  match product with
  | None => throw ProductNotFound
  | Some product =>
      id ← generateId;
      purchaseDate ← Date_now;
      let newPurchase :=
        {| Purchase.id := id; Purchase.buyerId := buyerId;
           Purchase.sellerId := Product.sellerId (ProductWithSeller.product product);
           Purchase.productId := productId; Purchase.quantity := num quantity;
           Purchase.totalPrice :=
             num (ToNumber (Product.price (ProductWithSeller.product product))
                  * quantity)%float;
           Purchase.purchaseDate := purchaseDate; Purchase.status := completed |} in
      saveToStorage STORAGE_KEYS.purchases (purchases ++ [newPurchase]);;
      cartService.removeFromCart productId;;
      mret newPurchase
  end.

Definition newest_purchase_first (a b : PurchaseWithDetails.t) : Z :=
  (Purchase.purchaseDate (PurchaseWithDetails.purchase b)
   - Purchase.purchaseDate (PurchaseWithDetails.purchase a))%Z.

(** [map] to rows whose [product] may be [undefined], then [filter] on it. *)
Definition getPurchaseHistory (userId : string) : M (list PurchaseWithDetails.t) :=
  purchases ← getFromStorage STORAGE_KEYS.purchases [];
  users ← getFromStorage STORAGE_KEYS.users [];
  products ← getFromStorage STORAGE_KEYS.products [];
  let rows :=
    (λ purchase,
       let product := Array_find (λ p, Product.id p = Purchase.productId purchase) products in
       let seller := Array_find (λ u, User.id u = Purchase.sellerId purchase) users in
       (purchase, product,
        {| Seller.id := or_else (User.id <$> seller) "";
           Seller.username := or_else (User.username <$> seller) "Unknown User" |}))
      <$> filter (λ purchase, Purchase.buyerId purchase = userId) purchases in
  mret (Array_sort newest_purchase_first
          (omap (λ row, (λ product, PurchaseWithDetails.mk row.1.1 product row.2)
                          <$> row.1.2) rows)).

End purchaseService.

(** ** [AuthManager] and the storage listener ([src/lib/auth.ts]) *)

(** A subscribed callback, by identity. What a callback does is outside
    this layer: the page records each call with its argument. *)
Definition Listener := nat.

Module AuthManager.

Record t := mk {
  currentUser : option AuthUser.t;
  (** a [Set]: no repeats, iterated in insertion order *)
  listeners : list Listener
}.

End AuthManager.

(** A page: the world, the singleton [authManager], and the calls made to
    subscribed callbacks so far. *)
Record Page := mkPage {
  world : World;
  instance : AuthManager.t;
  calls : list (Listener * option AuthUser.t)
}.

Module authManager.

(** [new AuthManager()] *)
Definition constructor (w : World) : AuthManager.t :=
  {| AuthManager.currentUser :=
       if window_defined w
       then match result authService.getCurrentUser w with
            | Ok user => user
            | Throw _ => None
            end
       else None;
     AuthManager.listeners := [] |}.

Definition getCurrentUser (p : Page) : option AuthUser.t :=
  AuthManager.currentUser (instance p).

Definition isAuthenticated (p : Page) : Result bool :=
  match result authService.isAuthenticated (world p) with
  | Ok b => Ok (b && bool_decide (is_Some (AuthManager.currentUser (instance p))))
  | Throw e => Throw e
  end.

Definition subscribe (callback : Listener) (p : Page) : Page :=
  {| world := world p;
     instance :=
       {| AuthManager.currentUser := AuthManager.currentUser (instance p);
          AuthManager.listeners :=
            if decide (callback ∈ AuthManager.listeners (instance p))
            then AuthManager.listeners (instance p)
            else AuthManager.listeners (instance p) ++ [callback] |};
     calls := calls p |}.

(** The function [subscribe] returns: [listeners.delete(callback)]. *)
Definition unsubscribe (callback : Listener) (p : Page) : Page :=
  {| world := world p;
     instance :=
       {| AuthManager.currentUser := AuthManager.currentUser (instance p);
          AuthManager.listeners :=
            filter (λ l, l ≠ callback) (AuthManager.listeners (instance p)) |};
     calls := calls p |}.

Definition notifyListeners (p : Page) : Page :=
  {| world := world p;
     instance := instance p;
     calls := calls p ++ ((λ callback, (callback, AuthManager.currentUser (instance p)))
                            <$> AuthManager.listeners (instance p)) |}.

Definition set_currentUser (user : option AuthUser.t) (w : World) (p : Page) : Page :=
  {| world := w;
     instance :=
       {| AuthManager.currentUser := user;
          AuthManager.listeners := AuthManager.listeners (instance p) |};
     calls := calls p |}.

Definition with_world (w : World) (p : Page) : Page :=
  {| world := w; instance := instance p; calls := calls p |}.

Definition login (email password : string) (p : Page) : Result AuthUser.t * Page :=
  match authService.login email password (world p) with
  | (Ok user, w) => (Ok user, notifyListeners (set_currentUser (Some user) w p))
  | (Throw error, w) => (Throw error, with_world w p)
  end.

(** A failed [authService.logout] is logged, not rethrown. *)
Definition logout (p : Page) : Result unit * Page :=
  match authService.logout (world p) with
  | (Ok _, w) => (Ok (), notifyListeners (set_currentUser None w p))
  | (Throw _, w) => (Ok (), with_world w p)
  end.

Definition register (email username password : string) (p : Page)
    : Result AuthUser.t * Page :=
  match authService.register email username password (world p) with
  | (Ok user, w) => (Ok user, notifyListeners (set_currentUser (Some user) w p))
  | (Throw error, w) => (Throw error, with_world w p)
  end.

(** A [Partial<AuthUser>] passed where a [Partial<User>] is expected. *)
Definition as_user_updates (updates : AuthUser.partial) : User.partial :=
  User.mkPartial (AuthUser.id' updates) (AuthUser.email' updates)
    (AuthUser.username' updates) None (AuthUser.bio' updates)
    (AuthUser.avatarUrl' updates) None None.

Definition updateProfile (updates : AuthUser.partial) (p : Page)
    : Result AuthUser.t * Page :=
  match AuthManager.currentUser (instance p) with
  | None => (Throw NotAuthenticated, p)
  | Some currentUser =>
      match authService.updateProfile (AuthUser.id currentUser)
              (as_user_updates updates) (world p) with
      | (Ok updatedUser, w) =>
          (Ok updatedUser, notifyListeners (set_currentUser (Some updatedUser) w p))
      | (Throw error, w) => (Throw error, with_world w p)
      end
  end.

(** [this.currentUser?.id === resourceOwnerId] *)
Definition isOwner (resourceOwnerId : string) (p : Page) : bool :=
  bool_decide (AuthUser.id <$> AuthManager.currentUser (instance p) = Some resourceOwnerId).

(** [return this.currentUser!]: the value of the field, whatever it is. *)
Definition requireAuth (p : Page) : Result (option AuthUser.t) :=
  match isAuthenticated p with
  | Ok true => Ok (AuthManager.currentUser (instance p))
  | Ok false => Throw AuthenticationRequired
  | Throw e => Throw e
  end.

End authManager.

(** [restoreSession], defined where the module is loaded in a browser: the
    call it makes on [authManager] is the getter, whose value it drops. *)
Definition restoreSession (p : Page) : Page :=
  match result authService.getCurrentUser (world p),
        result authService.isAuthenticated (world p) with
  | Ok (Some user), Ok true => let _ := authManager.getCurrentUser p in p
  | _, _ => p
  end.

(** The listener of ['storage'] events, registered in a browser only;
    [key] is [e.key], [None] for [null]. The event is delivered after
    another tab changed the storage. *)
Definition onStorage (key : option string) (p : Page) : Page :=
  if decide (key = Some "ecofinds_current_user" ∨ key = Some "ecofinds_auth_token")
  then restoreSession p
  else p.

(** ** [clearUserData], [handleAuthError], [getSessionInfo] *)

(** A key of [localStorage], whatever is kept under it. *)
Inductive AnyKey :=
  | any_key (T : Type) (key : Key T).
Arguments any_key {T} key.

Definition any_key_name (k : AnyKey) : string :=
  match k with
  | any_key key => key_name key
  end.

Definition any_key_remove (k : AnyKey) (s : Storage) : Storage :=
  match k with
  | any_key key => setItem key None s
  end.

(** The keys this layer ever writes. [Object.keys({ ...localStorage })]
    lists the ones present; removing an absent one changes nothing. *)
Definition localStorage_keys : list AnyKey :=
  [ any_key STORAGE_KEYS.users; any_key STORAGE_KEYS.products;
    any_key STORAGE_KEYS.cart; any_key STORAGE_KEYS.purchases;
    any_key STORAGE_KEYS.currentUser; any_key STORAGE_KEYS.authToken ].

Definition clearUserData : M unit :=
  λ w, if window_defined w
       then
         let keysToKeep := ["ecofinds_products"; "ecofinds_users"] in
         (Ok (),
          with_localStorage
            (foldl (λ s key,
                      if String.prefix "ecofinds_" (any_key_name key)
                         && negb (bool_decide (any_key_name key ∈ keysToKeep))
                      then any_key_remove key s
                      else s)
               (localStorage w) localStorage_keys) w)
       else (Ok (), w).

(** What a [catch] clause may receive. *)
Inductive Thrown :=
  | an_AuthError (message : string) (code : option string)
  | an_Error (error : Error)
  | not_an_Error.

Definition handleAuthError (error : Thrown) : string :=
  match error with
  | an_AuthError message _ => message
  | an_Error error =>
      if includes (message error) "Invalid credentials"
      then "Invalid email or password. Please try again."
      else if includes (message error) "already exists"
      then "An account with this email already exists. Please login instead."
      else if includes (message error) "Username is already taken"
      then "This username is already taken. Please choose another."
      else message error
  | not_an_Error => "An unexpected error occurred. Please try again."
  end.

Module SessionInfo.
Record t := mk {
  user : option AuthUser.t;
  isAuthenticated : bool;
  userId : option string;
  username : option string;
  email : option string
}.
End SessionInfo.

(** [s || null] on a string that may be [undefined]. *)
Definition or_null (s : option string) : option string :=
  match s with
  | Some s' => if decide (s' = "") then None else Some s'
  | None => None
  end.

Definition getSessionInfo (p : Page) : Result SessionInfo.t :=
  let user := authManager.getCurrentUser p in
  match authManager.isAuthenticated p with
  | Ok isAuthenticated =>
      Ok {| SessionInfo.user := user;
            SessionInfo.isAuthenticated := isAuthenticated;
            SessionInfo.userId := or_null (AuthUser.id <$> user);
            SessionInfo.username := or_null (AuthUser.username <$> user);
            SessionInfo.email := or_null (AuthUser.email <$> user) |}
  | Throw e => Throw e
  end.

(** ** Auxiliary definitions for the statements *)

(** The collections a service reads: [getFromStorage(key, [])]. *)
Definition stored_users (w : World) : list User.t :=
  readStorage STORAGE_KEYS.users [] w.
Definition stored_products (w : World) : list Product.t :=
  readStorage STORAGE_KEYS.products [] w.
Definition stored_cart (w : World) : list CartItem.t :=
  readStorage STORAGE_KEYS.cart [] w.
Definition stored_purchases (w : World) : list Purchase.t :=
  readStorage STORAGE_KEYS.purchases [] w.

(** The numbers JSON carries as they are: the finite ones, -0 aside. *)
Definition JSON_carries (x : float) : Prop := JSON_number (num x) = num x.

(** The persisted session projection and token. *)
Definition persisted_session (w : World) : option AuthUser.t * option string :=
  (ecofinds_current_user (localStorage w), ecofinds_auth_token (localStorage w)).

Ltac run :=
  unfold mbind, M_bind, mret, M_ret, getFromStorage, saveToStorage,
    generateId, Date_now, throw; simpl.

(** The world [createPurchase] leaves when the product resolves. *)
Definition purchased (w : World) (newPurchase : Purchase.t) (productId : string) : World :=
  {| window_defined := window_defined w;
     localStorage :=
       setItem STORAGE_KEYS.cart
         (Some (CartItem.as_JSON
                  <$> filter (λ item, CartItem.id item ≠ productId) (stored_cart w)))
         (setItem STORAGE_KEYS.purchases
            (Some (Purchase.as_JSON <$> stored_purchases w ++ [newPurchase]))
            (localStorage w));
     id_source := id_source w; ids_drawn := S (ids_drawn w);
     clock := clock w; clock_reads := S (clock_reads w);
     Unicode_toLowerCase := Unicode_toLowerCase w |}.

(** The cart items of a (user, product) pair. *)
Definition for_pair (userId productId : string) (item : CartItem.t) : Prop :=
  CartItem.userId item = userId ∧ CartItem.productId item = productId.

Global Instance for_pair_dec userId productId item : Decision (for_pair userId productId item).
  Proof. unfold for_pair. apply _. Defined.

(** The world [saveToStorage(STORAGE_KEYS.cart, cartItems)] leaves in a
    browser. *)
Definition with_cart (cartItems : list CartItem.t) (w : World) : World :=
  with_localStorage
    (setItem STORAGE_KEYS.cart (Some (CartItem.as_JSON <$> cartItems)) (localStorage w)) w.

Definition with_session (authUser : AuthUser.t) (token : string) (s : Storage) : Storage :=
  setItem STORAGE_KEYS.authToken (Some token)
    (setItem STORAGE_KEYS.currentUser (Some authUser) s).

(** The world a successful [login] leaves. *)
Definition logged_in (w : World) (user : User.t) : World :=
  {| window_defined := window_defined w;
     localStorage :=
       with_session (authService.toAuthUser user) (id_source w (ids_drawn w)) (localStorage w);
     id_source := id_source w; ids_drawn := S (ids_drawn w);
     clock := clock w; clock_reads := clock_reads w;
     Unicode_toLowerCase := Unicode_toLowerCase w |}.

Definition new_user (w : World) (email username password : string) : User.t :=
  {| User.id := id_source w (ids_drawn w); User.email := email;
     User.username := username; User.password := password; User.bio := None;
     User.avatarUrl := Some APP_CONFIG_defaultAvatarImage;
     User.createdAt := clock w (clock_reads w);
     User.updatedAt := clock w (S (clock_reads w)) |}.

(** The world a successful [register] leaves in a browser. *)
Definition registered (w : World) (newUser : User.t) : World :=
  {| window_defined := window_defined w;
     localStorage :=
       with_session (authService.toAuthUser newUser) (id_source w (S (ids_drawn w)))
         (setItem STORAGE_KEYS.users (Some (stored_users w ++ [newUser])) (localStorage w));
     id_source := id_source w; ids_drawn := S (S (ids_drawn w));
     clock := clock w; clock_reads := S (S (clock_reads w));
     Unicode_toLowerCase := Unicode_toLowerCase w |}.

(** ** Worlds used as concrete inputs *)

Definition empty_storage : Storage := mkStorage None None None None None None.

Fixpoint nth_id (n : nat) : string :=
  match n with
  | 0 => "id"
  | S n' => String "x" (nth_id n')
  end.

(** The Unicode case mapping on the letters of Latin-1, in UTF-8: next to
    A-Z, the letters U+00C0-U+00DE (bytes C3 80 - C3 9E, the sign U+00D7
    aside) go to the letters 32 code points above; any other character is
    kept. *)
Definition lower_Latin1 (d : ascii) : ascii :=
  let n := nat_of_ascii d in
  if decide (128 ≤ n ≤ 158 ∧ n ≠ 151)%nat then ascii_of_nat (n + 32) else d.

Fixpoint Latin1_toLowerCase (s : string) : string :=
  match s with
  | EmptyString => EmptyString
  | String c EmptyString => String (lower_ascii c) EmptyString
  | String c (String d s' as rest) =>
      if decide (nat_of_ascii c = 195)%nat
      then String c (String (lower_Latin1 d) (Latin1_toLowerCase s'))
      else String (lower_ascii c) (Latin1_toLowerCase rest)
  end.

(** A browser with nothing stored. Its identifiers and clock are fixed
    sequences, and of the Unicode case mapping it has the Latin-1 part; the
    text of the demo data is ASCII. *)
Definition fresh_browser : World :=
  mkWorld true empty_storage nth_id 0 (λ n, 1757153805586 + Z.of_nat n)%Z 0
    Latin1_toLowerCase.

(** The browser once the module is loaded: the demo user and products. *)
Definition demo_world : World := after initializeDemoData fresh_browser.

(** Email and username are unique across the stored users (compared as
    they are, case included). *)
Definition unique_identities (users : list User.t) : Prop :=
  NoDup (User.email <$> users) ∧ NoDup (User.username <$> users).

(** The demo browser after a second account was registered. *)
Definition two_accounts : World :=
  after (authService.register "bob@ecofinds.com" "Bob" "secret1") demo_world.

(** A profile update that asks for the username of the demo user:
    [{ username: 'EcoWarrior' }]. *)
Definition take_username : User.partial :=
  User.mkPartial None None (Some "EcoWarrior") None None None None None.

(** The seller summary the specification asks for on a joined row: the
    sentinel when no stored user has the product's seller identifier,
    otherwise the identifier and name of a stored user who has it. *)
Definition seller_summary (users : list User.t) (row : ProductWithSeller.t) : Prop :=
  let sellerId := Product.sellerId (ProductWithSeller.product row) in
  let seller := ProductWithSeller.seller row in
  (Forall (λ u, User.id u ≠ sellerId) users →
   seller = {| Seller.id := ""; Seller.username := "Unknown User" |}) ∧
  (Exists (λ u, User.id u = sellerId) users →
   Seller.id seller = sellerId ∧
   ∃ u, u ∈ users ∧ User.id u = sellerId ∧
        (User.username u ≠ "" → Seller.username seller = User.username u)).

(** Under [sort(compareFn)], [a] may stand before [b]. *)
Definition before {A} (compareFn : A → A → Z) (a b : A) : Prop :=
  (compareFn a b ≤ 0)%Z.

(** Newest first: creation times never increase along the list. *)
Definition newest_to_oldest (rows : list ProductWithSeller.t) : Prop :=
  StronglySorted
    (λ a b, (Product.createdAt (ProductWithSeller.product b)
             ≤ Product.createdAt (ProductWithSeller.product a))%Z) rows.

(** The letters of ASCII text, each in its upper and its lower case. *)
Definition letter_cases : list (ascii * ascii) :=
  zip (list_ascii_of_string "ABCDEFGHIJKLMNOPQRSTUVWXYZ")
      (list_ascii_of_string "abcdefghijklmnopqrstuvwxyz").

(** Two characters are the same when letter case is ignored: they are the
    same character, or the two cases of one letter. *)
Definition same_ignoring_case (a b : ascii) : Prop :=
  a = b ∨ (a, b) ∈ letter_cases ∨ (b, a) ∈ letter_cases.

(** Every character. *)
Definition all_ascii : list ascii := ascii_of_nat <$> seq 0 256.

(** Two texts are the same when letter case is ignored: character by
    character. *)
Definition same_text_ignoring_case (s t : string) : Prop :=
  Forall2 same_ignoring_case (list_ascii_of_string s) (list_ascii_of_string t).

(** The query occurs in the text when letter case is ignored: some
    substring of the text is the query up to letter case. *)
Definition contains_ignoring_case (text query : string) : Prop :=
  ∃ pre mid post,
    text = String.append pre (String.append mid post) ∧
    same_text_ignoring_case mid query.

(** What the specification asks of a row [search(text, category?)] keeps. *)
Definition search_matches (query : string) (category : option ProductCategory)
    (row : ProductWithSeller.t) : Prop :=
  (contains_ignoring_case (Product.title (ProductWithSeller.product row)) query ∨
   contains_ignoring_case (Product.description (ProductWithSeller.product row)) query) ∧
  (∀ c, category = Some c → Product.category (ProductWithSeller.product row) = c).

(** A tab opened on the demo data with nobody signed in, one callback
    subscribed; then another tab signs the demo user in. *)
Definition signed_out_tab : Page :=
  authManager.subscribe 0 (mkPage demo_world (authManager.constructor demo_world) []).

Definition signed_in_elsewhere : Page :=
  authManager.with_world
    (after (authService.login "demo@ecofinds.com" "demo123") demo_world) signed_out_tab.

Definition demo_session : AuthUser.t :=
  {| AuthUser.id := "demo-user-1"; AuthUser.email := "demo@ecofinds.com";
     AuthUser.username := "EcoWarrior";
     AuthUser.bio := Some "Passionate about sustainable living and finding unique second-hand treasures.";
     AuthUser.avatarUrl := Some "https://placehold.co/150x150?text=Eco+Warrior+Avatar" |}.

(** A listing that is no longer available, and a browser that stores it. *)
Definition sold_lamp : Product.t :=
  {| Product.id := "lamp-1"; Product.sellerId := "demo-user-1";
     Product.title := "Brass Desk Lamp";
     Product.description := "Mid-century brass desk lamp, rewired.";
     Product.price := num 10%float; Product.category := home_garden;
     Product.imageUrl := CATEGORY_PLACEHOLDER_IMAGES home_garden;
     Product.isAvailable := false;
     Product.createdAt := 1757153805000%Z; Product.updatedAt := 1757153805000%Z |}.

Definition lamp_shop : World :=
  with_localStorage
    (setItem STORAGE_KEYS.products (Some [sold_lamp]) (localStorage demo_world))
    demo_world.

(** The product [create] builds from the form data. *)
Definition new_product (w : World) (productData : Product.data) : Product.t :=
  {| Product.id := id_source w (ids_drawn w);
     Product.sellerId := Product.sellerId_ productData;
     Product.title := Product.title_ productData;
     Product.description := Product.description_ productData;
     Product.price := num (Product.price_ productData);
     Product.category := Product.category_ productData;
     Product.imageUrl := Product.imageUrl_ productData;
     Product.isAvailable := Product.isAvailable_ productData;
     Product.createdAt := clock w (clock_reads w);
     Product.updatedAt := clock w (S (clock_reads w)) |}.

(** Products by creation time, newest first. *)
Definition products_newest_to_oldest (products : list Product.t) : Prop :=
  StronglySorted (λ a b, (Product.createdAt b ≤ Product.createdAt a)%Z) products.

(** A listing form, as the create page submits it. *)
Definition teapot : Product.data :=
  {| Product.sellerId_ := "demo-user-1"; Product.title_ := "Cast Iron Teapot";
     Product.description_ := "Small cast iron teapot with infuser.";
     Product.price_ := 18.5%float; Product.category_ := home_garden;
     Product.imageUrl_ := CATEGORY_PLACEHOLDER_IMAGES home_garden;
     Product.isAvailable_ := true |}.

(** At most one cart item per (user, product) pair. *)
Definition cart_pair (item : CartItem.t) : string * string :=
  (CartItem.userId item, CartItem.productId item).

Definition one_item_per_pair (cart : list CartItem.t) : Prop :=
  NoDup (cart_pair <$> cart).

(** The demo browser with two pot sets in the demo user's cart. *)
Definition pots_in_cart : World :=
  after (cartService.addToCart "demo-user-1" "demo-product-3" (Some 2%float)) demo_world.

(** Purchases by date, newest first. *)
Definition purchases_newest_to_oldest (rows : list PurchaseWithDetails.t) : Prop :=
  StronglySorted
    (λ a b, (Purchase.purchaseDate (PurchaseWithDetails.purchase b)
             ≤ Purchase.purchaseDate (PurchaseWithDetails.purchase a))%Z) rows.

(** The row of the purchase history for a purchase and the product it
    references. *)
Definition history_row (users : list User.t) (purchase : Purchase.t) (product : Product.t)
    : PurchaseWithDetails.t :=
  let seller := Array_find (λ u, User.id u = Purchase.sellerId purchase) users in
  {| PurchaseWithDetails.purchase := purchase;
     PurchaseWithDetails.product := product;
     PurchaseWithDetails.seller :=
       {| Seller.id := or_else (User.id <$> seller) "";
          Seller.username := or_else (User.username <$> seller) "Unknown User" |} |}.

(** The calls [notifyListeners] makes: every subscribed callback, in
    subscription order, with the manager's current user. *)
Definition notifications (p : Page) (user : option AuthUser.t)
    : list (Listener * option AuthUser.t) :=
  (λ callback, (callback, user)) <$> AuthManager.listeners (instance p).

(** The tab of [signed_out_tab] once the demo user has signed in on it. *)
Definition signed_in_tab : Page :=
  (authManager.login "demo@ecofinds.com" "demo123" signed_out_tab).2.

(** A listing update that lowers the price: [{ price: 60 }]. *)
Definition price_cut : Product.partial :=
  Product.mkPartial None None None None (Some 60%float) None None None None None.

(** * Properties *)

(** ** Facts about [find] and the storage adapter *)

Lemma bind_Ok {A B} (m : M A) (f : A → M B) (w w' : World) (a : A) :
  m w = (Ok a, w') → (m ≫= f) w = f a w'.
Proof. unfold mbind, M_bind. by intros ->. Qed.

Lemma Array_find_cons {A} (P : A → Prop) `{!∀ x, Decision (P x)} (x : A) (l : list A) :
  Array_find P (x :: l) = if decide (P x) then Some x else Array_find P l.
Proof.
  unfold Array_find. simpl. case_decide; [done|].
  by destruct (list_find P l) as [[??]|].
Qed.

Lemma Array_find_None {A} (P : A → Prop) `{!∀ x, Decision (P x)} (l : list A) :
  Array_find P l = None ↔ Forall (λ x, ¬ P x) l.
Proof.
  unfold Array_find. rewrite fmap_None. apply list_find_None.
Qed.

Lemma Array_find_Some {A} (P : A → Prop) `{!∀ x, Decision (P x)} (l : list A) (x : A) :
  Array_find P l = Some x → x ∈ l ∧ P x.
Proof.
  unfold Array_find. intros ([i y] & Hf & ->)%fmap_Some.
  apply list_find_Some in Hf as (Hl & HP & _). split; [|done].
  by eapply list_elem_of_lookup_2.
Qed.

Lemma Array_find_is_Some {A} (P : A → Prop) `{!∀ x, Decision (P x)} (l : list A) :
  is_Some (Array_find P l) ↔ Exists P l.
Proof.
  rewrite <-not_eq_None_Some, Array_find_None. split.
  - intros Hs. destruct (decide (Exists P l)) as [|Hn]; [done|].
    destruct Hs. by apply Forall_Exists_neg.
  - intros Hex Hn. by apply Forall_Exists_neg in Hn.
Qed.

Lemma stored_nonempty_window {T} (key : Key (list T)) (x : T) (w : World) :
  x ∈ readStorage key [] w → window_defined w = true.
Proof.
  unfold readStorage. destruct (window_defined w); [done|]. by intros ?%elem_of_nil.
Qed.

(** ** What JSON carries *)

Lemma JSON_number_idemp (v : JSnumber) : JSON_number (JSON_number v) = JSON_number v.
Proof.
  destruct v as [x|]; [|done]. simpl.
  destruct (classify x) eqn:Hclass; simpl; rewrite ?Hclass; reflexivity.
Qed.

Lemma Product_as_JSON_idemp (product : Product.t) :
  Product.as_JSON (Product.as_JSON product) = Product.as_JSON product.
Proof. unfold Product.as_JSON. simpl. by rewrite JSON_number_idemp. Qed.

Lemma CartItem_as_JSON_idemp (item : CartItem.t) :
  CartItem.as_JSON (CartItem.as_JSON item) = CartItem.as_JSON item.
Proof. unfold CartItem.as_JSON. simpl. by rewrite JSON_number_idemp. Qed.

Lemma Purchase_as_JSON_idemp (purchase : Purchase.t) :
  Purchase.as_JSON (Purchase.as_JSON purchase) = Purchase.as_JSON purchase.
Proof. unfold Purchase.as_JSON. simpl. by rewrite !JSON_number_idemp. Qed.

Lemma fmap_fixed {A} (f : A → A) (l : list A) : Forall (λ x, f x = x) l → f <$> l = l.
Proof. induction 1 as [|x l Hx _ IH]; [done|]. csimpl. by rewrite Hx, IH. Qed.

Lemma fmap_idemp {A} (f : A → A) (l : list A) :
  (∀ x, f (f x) = f x) → f <$> (f <$> l) = f <$> l.
Proof. intros Hf. apply fmap_fixed, Forall_fmap, Forall_forall. intros x _. apply Hf. Qed.

Lemma readStorage_fixed {T} (f : T → T) (key : Key (list T)) (w : World) :
  (∀ x, f (f x) = f x) → as_JSON key = fmap f →
  Forall (λ x, f x = x) (readStorage key [] w).
Proof.
  intros Hf Hkey. unfold readStorage. rewrite Hkey.
  destruct (window_defined w); [|done].
  destruct (getItem key (localStorage w)) as [l|]; simpl; [|done].
  apply Forall_fmap, Forall_forall. intros x _. apply Hf.
Qed.

(** What is read from storage is what JSON carries. *)
Lemma stored_products_as_JSON (w : World) :
  Forall (λ product, Product.as_JSON product = product) (stored_products w).
Proof. by apply readStorage_fixed; [apply Product_as_JSON_idemp|]. Qed.

Lemma stored_cart_as_JSON (w : World) :
  Forall (λ item, CartItem.as_JSON item = item) (stored_cart w).
Proof. by apply readStorage_fixed; [apply CartItem_as_JSON_idemp|]. Qed.

Lemma stored_purchases_as_JSON (w : World) :
  Forall (λ purchase, Purchase.as_JSON purchase = purchase) (stored_purchases w).
Proof. by apply readStorage_fixed; [apply Purchase_as_JSON_idemp|]. Qed.

Lemma Forall_filter_keeps {A} (P Q : A → Prop) `{!∀ x, Decision (Q x)} (l : list A) :
  Forall P l → Forall P (filter Q l).
Proof.
  rewrite !Forall_forall. intros Hall x [_ Hin]%list_elem_of_filter. by apply Hall.
Qed.


(** ** Login *)

(** C6: when every stored user with this email has another password (in
    particular when no stored user has this email), [login] throws
    'Invalid credentials' and the world it leaves is the one it found, so
    the persisted session projection and token are the ones before. *)
Theorem login_invalid_credentials (w : World) (email password : string) :
  Forall (λ u, User.email u = email → User.password u ≠ password) (stored_users w) →
  authService.login email password w = (Throw InvalidCredentials, w) ∧
  persisted_session (after (authService.login email password) w) = persisted_session w.
Proof.
  intros Hno. unfold after.
  assert (Array_find (λ u, User.email u = email ∧ User.password u = password)
            (stored_users w) = None) as Hfind.
  { apply Array_find_None. eapply Forall_impl; [exact Hno|].
    intros u Hu [He Hp]. by apply Hu. }
  unfold authService.login. run. fold (stored_users w). by rewrite Hfind.
Qed.

(** ** Purchases *)

Lemma getById_run (id : string) (w : World) :
  productService.getById id w =
  (Ok (productService.withSeller (stored_users w)
         <$> Array_find (λ p, Product.id p = id) (stored_products w)), w).
Proof.
  unfold productService.getById. run.
  fold (stored_products w) (stored_users w).
  by destruct (Array_find _ (stored_products w)).
Qed.

Lemma createPurchase_run (w : World) (buyerId productId : string) (quantity : float) :
  purchaseService.createPurchase buyerId productId quantity w =
  match Array_find (λ p, Product.id p = productId) (stored_products w) with
  | None => (Throw ProductNotFound, w)
  | Some product =>
      let newPurchase :=
        {| Purchase.id := id_source w (ids_drawn w); Purchase.buyerId := buyerId;
           Purchase.sellerId := Product.sellerId product;
           Purchase.productId := productId; Purchase.quantity := num quantity;
           Purchase.totalPrice := num (ToNumber (Product.price product) * quantity)%float;
           Purchase.purchaseDate := clock w (clock_reads w);
           Purchase.status := completed |} in
      (Ok newPurchase, purchased w newPurchase productId)
  end.
Proof.
  unfold purchaseService.createPurchase.
  unfold mbind at 1 2, M_bind at 1 2, getFromStorage at 1. cbv beta iota.
  rewrite getById_run.
  destruct (Array_find _ (stored_products w)) as [product|] eqn:Hfind; [|done].
  apply Array_find_Some in Hfind as [Hin _].
  apply stored_nonempty_window in Hin.
  destruct w as [wd ls ids n clk m low]. simpl in Hin. subst wd. reflexivity.
Qed.

Lemma stored_purchased (w : World) (newPurchase : Purchase.t) (productId : string) :
  window_defined w = true →
  stored_purchases (purchased w newPurchase productId)
  = stored_purchases w ++ [Purchase.as_JSON newPurchase] ∧
  stored_cart (purchased w newPurchase productId)
  = filter (λ item, CartItem.id item ≠ productId) (stored_cart w) ∧
  stored_products (purchased w newPurchase productId) = stored_products w ∧
  stored_users (purchased w newPurchase productId) = stored_users w.
Proof.
  intros Hwin. split_and!.
  - unfold stored_purchases at 1, readStorage. simpl. rewrite Hwin. simpl.
    rewrite fmap_idemp by apply Purchase_as_JSON_idemp.
    by rewrite fmap_app, (fmap_fixed _ _ (stored_purchases_as_JSON w)).
  - unfold stored_cart at 1, readStorage. simpl. rewrite Hwin. simpl.
    rewrite fmap_idemp by apply CartItem_as_JSON_idemp.
    apply fmap_fixed, Forall_filter_keeps, stored_cart_as_JSON.
  - unfold stored_products, readStorage. simpl. by rewrite Hwin.
  - unfold stored_users, readStorage. simpl. by rewrite Hwin.
Qed.

Lemma Purchase_as_JSON_carried (purchase : Purchase.t) (quantity totalPrice : float) :
  Purchase.quantity purchase = num quantity → Purchase.totalPrice purchase = num totalPrice →
  JSON_carries quantity → JSON_carries totalPrice →
  Purchase.as_JSON purchase = purchase.
Proof.
  destruct purchase. simpl. intros -> -> Hquantity HtotalPrice.
  unfold Purchase.as_JSON. simpl. f_equal; [exact Hquantity|exact HtotalPrice].
Qed.

(** C1: when no stored product has the identifier, [createPurchase] throws
    'Product not found' and changes nothing. Otherwise, for the product that
    resolves, it returns a Purchase with the seller of the product, the
    product's price times the quantity as total and status "completed"; the
    purchases collection is then the stored one with this Purchase appended
    as JSON carries it, which is the Purchase itself when the quantity and
    the total are numbers JSON carries (finite, -0 aside); the cart
    collection is then the stored one without the items whose own identifier
    is [productId]; products and users are as before. *)
Theorem createPurchase_spec (w : World) (buyerId productId : string) (quantity : float) :
  match Array_find (λ p, Product.id p = productId) (stored_products w) with
  | None =>
      purchaseService.createPurchase buyerId productId quantity w
      = (Throw ProductNotFound, w)
  | Some product =>
      ∃ newPurchase w',
        purchaseService.createPurchase buyerId productId quantity w = (Ok newPurchase, w') ∧
        Purchase.buyerId newPurchase = buyerId ∧
        Purchase.productId newPurchase = productId ∧
        Purchase.quantity newPurchase = num quantity ∧
        Purchase.sellerId newPurchase = Product.sellerId product ∧
        Purchase.totalPrice newPurchase
        = num (ToNumber (Product.price product) * quantity)%float ∧
        Purchase.status newPurchase = completed ∧
        stored_purchases w' = stored_purchases w ++ [Purchase.as_JSON newPurchase] ∧
        (JSON_carries quantity →
         JSON_carries (ToNumber (Product.price product) * quantity)%float →
         Purchase.as_JSON newPurchase = newPurchase) ∧
        stored_cart w' = filter (λ item, CartItem.id item ≠ productId) (stored_cart w) ∧
        stored_products w' = stored_products w ∧
        stored_users w' = stored_users w
  end.
Proof.
  rewrite createPurchase_run.
  destruct (Array_find _ (stored_products w)) as [product|] eqn:Hfind; [|done].
  pose proof (stored_nonempty_window _ _ _ (proj1 (Array_find_Some _ _ _ Hfind))) as Hwin.
  cbv zeta. set (newPurchase := Purchase.mk _ _ _ _ _ _ _ _).
  destruct (stored_purchased w newPurchase productId Hwin) as (Hpu & Hcart & Hpr & Hus).
  exists newPurchase, (purchased w newPurchase productId).
  split_and!; [reflexivity..|exact Hpu| |exact Hcart|exact Hpr|exact Hus].
  intros Hq Ht. by eapply Purchase_as_JSON_carried.
Qed.

(** C1, at an input where it fails: the lamp costs 10 and a purchase of
    2^1023 of it (a whole number near 9e307) is recorded; the total of the
    Purchase that is persisted is [null], which is not the price times the
    quantity. *)
Lemma createPurchase_total_not_persisted :
  Array_find (λ p, Product.id p = "lamp-1") (stored_products lamp_shop) = Some sold_lamp ∧
  Product.price sold_lamp = num 10%float ∧
  Purchase.totalPrice
    <$> stored_purchases
          (after (purchaseService.createPurchase "demo-user-1" "lamp-1" 0x1p1023%float)
             lamp_shop)
  = [null] ∧
  null ≠ num (10 * 0x1p1023)%float.
Proof. split_and!; [vm_compute; reflexivity..|discriminate]. Qed.

(** C10: [createPurchase] throws 'Product not found' exactly when no stored
    product has the identifier, it throws nothing else, and for every stored
    product whose [isAvailable] is false a purchase of its identifier
    succeeds with status "completed", and the purchases collection then
    holds a Purchase with the identifier of the returned one, this buyer,
    this product and status "completed". *)
Theorem createPurchase_NotFound_iff (w : World) (buyerId productId : string) (quantity : float) :
  (result (purchaseService.createPurchase buyerId productId quantity) w = Throw ProductNotFound
   ↔ Forall (λ p, Product.id p ≠ productId) (stored_products w)) ∧
  (∀ e, result (purchaseService.createPurchase buyerId productId quantity) w = Throw e
        → e = ProductNotFound) ∧
  Forall (λ p, Product.isAvailable p = false →
            ∃ newPurchase recorded,
              result (purchaseService.createPurchase buyerId (Product.id p) quantity) w
              = Ok newPurchase ∧
              Purchase.status newPurchase = completed ∧
              recorded ∈ stored_purchases
                (after (purchaseService.createPurchase buyerId (Product.id p) quantity) w) ∧
              Purchase.id recorded = Purchase.id newPurchase ∧
              Purchase.buyerId recorded = buyerId ∧
              Purchase.productId recorded = Product.id p ∧
              Purchase.status recorded = completed)
    (stored_products w).
Proof.
  unfold result, after. split_and!.
  - rewrite createPurchase_run.
    destruct (Array_find _ (stored_products w)) eqn:Hfind; simpl.
    + split; [done|]. intros Hno.
      apply (Array_find_None (λ p, Product.id p = productId)) in Hno.
      pose proof (eq_trans (eq_sym Hfind) Hno). done.
    + split; [|done]. intros _.
      by apply (Array_find_None (λ p, Product.id p = productId)).
  - intros e. rewrite createPurchase_run.
    destruct (Array_find _ (stored_products w)); simpl; congruence.
  - apply Forall_forall. intros p Hp _.
    rewrite createPurchase_run.
    destruct (Array_find _ (stored_products w)) as [product|] eqn:Hfind.
    + cbv zeta. set (newPurchase := Purchase.mk _ _ _ _ _ _ _ _). simpl.
      destruct (stored_purchased w newPurchase (Product.id p)
                  (stored_nonempty_window _ _ _ Hp)) as (Hpu & _).
      exists newPurchase, (Purchase.as_JSON newPurchase).
      split_and!; try reflexivity.
      rewrite Hpu. apply elem_of_app. right. by apply list_elem_of_singleton.
    + apply (Array_find_None (λ q, Product.id q = Product.id p)) in Hfind.
      rewrite Forall_forall in Hfind.
      by destruct (Hfind p Hp).
Qed.

(** ** Cart *)

Lemma stored_cart_with_cart (cartItems : list CartItem.t) (w : World) :
  window_defined w = true →
  stored_cart (with_cart cartItems w) = CartItem.as_JSON <$> cartItems.
Proof.
  unfold stored_cart, readStorage. simpl. intros ->. simpl.
  apply fmap_idemp, CartItem_as_JSON_idemp.
Qed.

Lemma addToCart_run (w : World) (userId productId : string) (quantity : option float) :
  window_defined w = true →
  cartService.addToCart userId productId quantity w =
  match list_find (for_pair userId productId) (stored_cart w) with
  | Some (existingItemIndex, existing) =>
      let updated := cartService.add_quantity existing (default 1%float quantity) in
      (Ok updated, with_cart (<[existingItemIndex := updated]> (stored_cart w)) w)
  | None =>
      let newCartItem :=
        {| CartItem.id := id_source w (ids_drawn w); CartItem.userId := userId;
           CartItem.productId := productId;
           CartItem.quantity := num (default 1%float quantity);
           CartItem.addedAt := clock w (clock_reads w) |} in
      (Ok newCartItem,
       with_cart (stored_cart w ++ [newCartItem])
         {| window_defined := window_defined w; localStorage := localStorage w;
            id_source := id_source w; ids_drawn := S (ids_drawn w);
            clock := clock w; clock_reads := S (clock_reads w);
            Unicode_toLowerCase := Unicode_toLowerCase w |})
  end.
Proof.
  intros Hwin. destruct w as [wd ls ids n clk m low]. simpl in Hwin. subst wd.
  unfold cartService.addToCart, for_pair. run.
  unfold stored_cart, readStorage. simpl.
  by destruct (list_find _ _) as [[i existing]|].
Qed.


Lemma as_JSON_cart_insert (w : World) (i : nat) (item : CartItem.t) :
  CartItem.as_JSON <$> <[i := item]> (stored_cart w)
  = <[i := CartItem.as_JSON item]> (stored_cart w).
Proof. by rewrite list_fmap_insert, (fmap_fixed _ _ (stored_cart_as_JSON w)). Qed.



Example addToCart_2_then_3 :
  let w := mkWorld true (mkStorage None None None None None None)
             (λ n, if n is 0 then "i0" else "i1") 0 (λ n, Z.of_nat n) 0
             Latin1_toLowerCase in
  CartItem.quantity <$>
    stored_cart (after (cartService.addToCart "u" "p" (Some 2%float);;
                        cartService.addToCart "u" "p" (Some 3%float)) w)
  = [num 5%float].
Proof. vm_compute. reflexivity. Qed.

(** ** Registration and login *)

Lemma login_run (w : World) (email password : string) :
  authService.login email password w =
  match Array_find (λ u, User.email u = email ∧ User.password u = password)
          (stored_users w) with
  | None => (Throw InvalidCredentials, w)
  | Some user => (Ok (authService.toAuthUser user), logged_in w user)
  end.
Proof.
  unfold authService.login. run. fold (stored_users w).
  destruct (Array_find _ (stored_users w)) as [user|] eqn:Hfind; [|done].
  apply Array_find_Some in Hfind as [Hin _].
  apply stored_nonempty_window in Hin.
  destruct w as [wd ls ids n clk m low]. simpl in Hin. by subst wd.
Qed.

Lemma register_run (w : World) (email username password : string) :
  window_defined w = true →
  authService.register email username password w =
  if decide (Exists (λ u, User.email u = email) (stored_users w))
  then (Throw DuplicateEmail, w)
  else if decide (Exists (λ u, User.username u = username) (stored_users w))
  then (Throw DuplicateUsername, w)
  else (Ok (authService.toAuthUser (new_user w email username password)),
        registered w (new_user w email username password)).
Proof.
  intros Hwin. unfold authService.register. run. fold (stored_users w).
  destruct (decide (is_Some (Array_find (λ u, User.email u = email) (stored_users w))))
    as [He|He]; rewrite Array_find_is_Some in He.
  { by rewrite decide_True. }
  rewrite (decide_False (P := Exists _ _)) by done.
  destruct (decide (is_Some (Array_find (λ u, User.username u = username) (stored_users w))))
    as [Hu|Hu]; rewrite Array_find_is_Some in Hu.
  { by rewrite decide_True. }
  rewrite (decide_False (P := Exists _ _)) by done.
  destruct w as [wd ls ids n clk m low]. simpl in Hwin. by subst wd.
Qed.

Lemma register_duplicate_email (w : World) (email username password : string) :
  Exists (λ u, User.email u = email) (stored_users w) →
  authService.register email username password w = (Throw DuplicateEmail, w).
Proof.
  intros Hex. rewrite register_run, decide_True; [done..|].
  apply Exists_exists in Hex as (u & Hu & _). by eapply stored_nonempty_window.
Qed.

Lemma register_duplicate_username (w : World) (email username password : string) :
  Forall (λ u, User.email u ≠ email) (stored_users w) →
  Exists (λ u, User.username u = username) (stored_users w) →
  authService.register email username password w = (Throw DuplicateUsername, w).
Proof.
  intros Hall Hex. rewrite register_run.
  - rewrite decide_False, decide_True; [done..|]. by apply Forall_Exists_neg.
  - apply Exists_exists in Hex as (u & Hu & _). by eapply stored_nonempty_window.
Qed.

Lemma register_fresh (w : World) (email username password : string) :
  window_defined w = true →
  Forall (λ u, User.email u ≠ email ∧ User.username u ≠ username) (stored_users w) →
  authService.register email username password w
  = (Ok (authService.toAuthUser (new_user w email username password)),
     registered w (new_user w email username password)).
Proof.
  intros Hwin Hall. rewrite register_run by done.
  rewrite !decide_False; [done|..]; apply Forall_Exists_neg;
    (eapply Forall_impl; [exact Hall|]); by intros u [??].
Qed.

Lemma stored_users_registered (w : World) (newUser : User.t) :
  window_defined w = true →
  stored_users (registered w newUser) = stored_users w ++ [newUser].
Proof. unfold stored_users at 1, readStorage. simpl. by intros ->. Qed.

(** C5: in a browser, [register] with an email and a username no stored
    user has returns; [getCurrentUser()] then returns a session with that
    email and username, and [login] with the same email and password then
    returns too. [register] with an email a stored user has throws 'User
    with this email already exists'; with a username a stored user has (and
    an email none has) it throws 'Username is already taken'. Emails and
    usernames are compared as they are, case included. *)
Theorem register_then_login (w : World) (email username password : string) :
  (window_defined w = true →
   Forall (λ u, User.email u ≠ email ∧ User.username u ≠ username) (stored_users w) →
   ∃ authUser w1 session authUser' w2,
     authService.register email username password w = (Ok authUser, w1) ∧
     authService.getCurrentUser w1 = (Ok (Some session), w1) ∧
     AuthUser.email session = email ∧ AuthUser.username session = username ∧
     authService.login email password w1 = (Ok authUser', w2)) ∧
  (Exists (λ u, User.email u = email) (stored_users w) →
   authService.register email username password w = (Throw DuplicateEmail, w)) ∧
  (Forall (λ u, User.email u ≠ email) (stored_users w) →
   Exists (λ u, User.username u = username) (stored_users w) →
   authService.register email username password w = (Throw DuplicateUsername, w)).
Proof.
  split_and!; [|apply register_duplicate_email|apply register_duplicate_username].
  intros Hwin Hfresh. rewrite register_fresh by done.
  set (newUser := new_user w email username password).
  set (w1 := registered w newUser).
  assert (is_Some (Array_find (λ u, User.email u = email ∧ User.password u = password)
                     (stored_users w1))) as [user Hfind].
  { apply Array_find_is_Some. unfold w1. rewrite stored_users_registered by done.
    apply Exists_app. right. by apply Exists_cons_hd. }
  eexists _, w1, (authService.toAuthUser newUser), _, _. split_and!; [done| |done|done|].
  - unfold authService.getCurrentUser. simpl. by rewrite Hwin.
  - rewrite login_run, Hfind. reflexivity.
Qed.

(** ** Uniqueness of emails and usernames *)

Lemma register_preserves_unique (w : World) (email username password : string) :
  unique_identities (stored_users w) →
  unique_identities (stored_users (after (authService.register email username password) w)).
Proof.
  intros [Hemails Hnames]. unfold after.
  destruct (window_defined w) eqn:Hwin.
  - rewrite register_run by done.
    destruct (decide (Exists _ _)) as [|He]; [done|].
    destruct (decide (Exists _ _)) as [|Hu]; [done|].
    simpl. rewrite stored_users_registered by done.
    apply Forall_Exists_neg in He, Hu. rewrite Forall_forall in He, Hu.
    split; rewrite fmap_app; apply NoDup_app; (split_and!; [done| |apply NoDup_singleton]).
    + intros e (u & -> & Hin)%list_elem_of_fmap Heq%list_elem_of_singleton.
      by apply (He u).
    + intros n (u & -> & Hin)%list_elem_of_fmap Heq%list_elem_of_singleton.
      by apply (Hu u).
  - clear Hemails Hnames. destruct w as [wd ls ids n clk m low]. simpl in Hwin. subst wd.
    unfold authService.register. run.
    repeat case_decide; simpl; split; apply NoDup_nil_2.
Qed.

(** C3, at the input where it fails: two stored users with distinct emails
    and usernames; [updateProfile] of the second with the username of the
    first returns, and the stored users then share that username. *)
Theorem updateProfile_duplicates_username :
  unique_identities (stored_users two_accounts) ∧
  result (authService.updateProfile "id" take_username) two_accounts
  = Ok (AuthUser.mk "id" "bob@ecofinds.com" "EcoWarrior" None
          (Some APP_CONFIG_defaultAvatarImage)) ∧
  User.username <$> stored_users (after (authService.updateProfile "id" take_username) two_accounts)
  = ["EcoWarrior"; "EcoWarrior"] ∧
  ¬ unique_identities
      (stored_users (after (authService.updateProfile "id" take_username) two_accounts)).
Proof.
  split_and!.
  - split; apply (bool_decide_unpack _); vm_compute; exact I.
  - vm_compute. reflexivity.
  - vm_compute. reflexivity.
  - intros [_ Hnames]. revert Hnames. apply (bool_decide_unpack _). vm_compute. exact I.
Qed.

(** ** [sort] with a comparison function *)

Section sort.
Context {A : Type} (compareFn : A → A → Z).

Local Abbreviation before := (before compareFn).

Hypothesis before_total : ∀ a b, before a b ∨ before b a.
Hypothesis before_trans : ∀ a b c, before a b → before b c → before a c.

Lemma sort_insert_perm (x : A) (l : list A) : sort_insert compareFn x l ≡ₚ x :: l.
Proof.
  induction l as [|y l IH]; simpl; [done|].
  case_decide; [done|]. by rewrite IH, Permutation_swap.
Qed.

Lemma Array_sort_perm (l : list A) : Array_sort compareFn l ≡ₚ l.
Proof.
  induction l as [|x l IH]; simpl; [done|].
  by rewrite sort_insert_perm, IH.
Qed.

Lemma sort_insert_sorted (x : A) (l : list A) :
  StronglySorted before l → StronglySorted before (sort_insert compareFn x l).
Proof.
  induction 1 as [|y l Hl IH Hy]; simpl.
  - repeat constructor.
  - case_decide as Hxy.
    + constructor; [by constructor|]. constructor; [done|].
      eapply Forall_impl; [exact Hy|]. intros z Hz. by eapply before_trans.
    + constructor; [done|]. rewrite sort_insert_perm. constructor; [|done].
      by destruct (before_total x y).
Qed.

Lemma Array_sort_sorted (l : list A) : StronglySorted before (Array_sort compareFn l).
Proof.
  induction l as [|x l IH]; simpl; [constructor|]. by apply sort_insert_sorted.
Qed.

End sort.

Lemma StronglySorted_weaken {A} (R1 R2 : A → A → Prop) (l : list A) :
  (∀ a b, R1 a b → R2 a b) → StronglySorted R1 l → StronglySorted R2 l.
Proof.
  intros Himpl. induction 1 as [|x l _ IH Hx]; constructor; [done|].
  eapply Forall_impl; [exact Hx|]. intros b. apply Himpl.
Qed.

(** ** Listing *)

Lemma getAll_run (w : World) :
  productService.getAll w =
  (Ok (Array_sort productService.newest_first
         (productService.withSeller (stored_users w)
            <$> filter (λ p, Product.isAvailable p = true) (stored_products w))), w).
Proof. reflexivity. Qed.

Lemma withSeller_summary (users : list User.t) (product : Product.t) :
  seller_summary users (productService.withSeller users product).
Proof.
  unfold seller_summary, productService.withSeller. simpl.
  destruct (Array_find _ users) as [u|] eqn:Hfind; simpl.
  - apply Array_find_Some in Hfind as [Hin Hid]. split.
    + intros Hno. rewrite Forall_forall in Hno. by destruct (Hno u Hin).
    + intros _. unfold or_else. split.
      * by case_decide; congruence.
      * exists u. split_and!; [done..|]. intros Hname. by rewrite decide_False.
  - split; [done|]. intros Hex.
    apply (Array_find_is_Some (λ u, User.id u = Product.sellerId product)) in Hex.
    rewrite Hfind in Hex. by destruct Hex.
Qed.

Example getAll_demo :
  Product.title ∘ ProductWithSeller.product
    <$> default [] (match result productService.getAll demo_world with
                    | Ok rows => Some rows
                    | Throw _ => None
                    end)
  = ["Ceramic Plant Pot Set"; "iPhone 12 Pro Max"; "Vintage Leather Jacket"].
Proof. vm_compute. reflexivity. Qed.

(** C7: [getAll] returns, without touching the world, a list whose
    products are exactly the stored products with [isAvailable] true (each
    once per stored occurrence), every row carrying the seller summary with
    the 'Unknown User' fallback, in order of creation time from newest to
    oldest. *)
Theorem getAll_spec (w : World) :
  ∃ rows,
    productService.getAll w = (Ok rows, w) ∧
    ProductWithSeller.product <$> rows
      ≡ₚ filter (λ p, Product.isAvailable p = true) (stored_products w) ∧
    Forall (seller_summary (stored_users w)) rows ∧
    newest_to_oldest rows.
Proof.
  eexists. split; [apply getAll_run|]. split_and!.
  - rewrite Array_sort_perm, <-list_fmap_compose. by rewrite list_fmap_id.
  - rewrite Array_sort_perm. apply Forall_fmap, Forall_forall.
    intros p _. apply withSeller_summary.
  - unfold newest_to_oldest.
    eapply StronglySorted_weaken;
      [|apply (Array_sort_sorted productService.newest_first)];
      unfold before, productService.newest_first; intros; lia.
Qed.

(** ** Cart view after a product is deleted *)

Lemma mapM_run {A B} (f : A → M B) (g : A → B) (w : World) (l : list A) :
  (∀ x, f x w = (Ok (g x), w)) → mapM f l w = (Ok (g <$> l), w).
Proof.
  intros Hf. induction l as [|x l IH]; [done|].
  change (mapM f (x :: l) w) with ((y ← f x; k ← mapM f l; mret (y :: k)) w).
  rewrite (bind_Ok _ _ _ _ _ (Hf x)), (bind_Ok _ _ _ _ _ IH). reflexivity.
Qed.

(** The row of a cart item, when its product resolves. *)
Lemma getCartItems_run (userId : string) (w : World) :
  cartService.getCartItems userId w =
  (Ok (omap (λ cartItem,
         CartItemWithProduct.mk cartItem
           <$> (productService.withSeller (stored_users w)
                  <$> Array_find (λ p, Product.id p = CartItem.productId cartItem)
                        (stored_products w)))
         (filter (λ item, CartItem.userId item = userId) (stored_cart w))), w).
Proof.
  unfold cartService.getCartItems.
  unfold mbind at 1, M_bind at 1, getFromStorage at 1. cbv beta iota.
  fold (stored_cart w). unfold mbind at 1, M_bind at 1.
  erewrite mapM_run; last first.
  { intros cartItem. unfold mbind, M_bind. rewrite getById_run. reflexivity. }
  unfold mret, M_ret. f_equal. f_equal.
  induction (filter _ (stored_cart w)) as [|cartItem l IH]; [done|].
  csimpl. rewrite IH. by destruct (Array_find _ _).
Qed.

Lemma delete_run (id : string) (w : World) :
  productService.delete id w =
  (Ok (), if window_defined w
          then with_localStorage
                 (setItem STORAGE_KEYS.products
                    (Some (Product.as_JSON
                             <$> filter (λ p, Product.id p ≠ id) (stored_products w)))
                    (localStorage w)) w
          else w).
Proof.
  unfold productService.delete. run. fold (stored_products w).
  by destruct (window_defined w).
Qed.

Lemma stored_after_delete (id : string) (w : World) :
  stored_products (after (productService.delete id) w)
  = filter (λ p, Product.id p ≠ id) (stored_products w) ∧
  stored_users (after (productService.delete id) w) = stored_users w ∧
  stored_cart (after (productService.delete id) w) = stored_cart w.
Proof.
  unfold after. rewrite delete_run. simpl.
  destruct (window_defined w) eqn:Hwin;
    [|unfold stored_products, stored_users, stored_cart, readStorage; by rewrite Hwin].
  split_and!.
  - unfold stored_products at 1, readStorage. simpl. rewrite Hwin. simpl.
    rewrite fmap_idemp by apply Product_as_JSON_idemp.
    apply fmap_fixed, Forall_filter_keeps, stored_products_as_JSON.
  - unfold stored_users, readStorage. simpl. by rewrite Hwin.
  - unfold stored_cart, readStorage. simpl. by rewrite Hwin.
Qed.

Lemma Array_find_filter_other (products : list Product.t) (id other : string) :
  other ≠ id →
  Array_find (λ p, Product.id p = other) (filter (λ p, Product.id p ≠ id) products)
  = Array_find (λ p, Product.id p = other) products.
Proof.
  intros Hne. induction products as [|p l IH]; [done|].
  rewrite filter_cons. case_decide as Hp.
  - rewrite !Array_find_cons, IH. done.
  - rewrite Array_find_cons, decide_False, IH; [done|].
    congruence.
Qed.

Lemma Array_find_filter_same (products : list Product.t) (id : string) :
  Array_find (λ p, Product.id p = id) (filter (λ p, Product.id p ≠ id) products) = None.
Proof.
  apply Array_find_None, Forall_forall. by intros p [? _]%list_elem_of_filter.
Qed.

(** C9: [delete(p)] returns, and [getCartItems] called next returns too
    (it has no path that throws); none of its rows is for a cart item that
    references [p], and its rows are those it had before the deletion
    without the ones that reference [p]. *)
Theorem deleted_product_dropped_from_cart (w : World) (productId userId : string) :
  ∃ w' rows_before rows,
    productService.delete productId w = (Ok (), w') ∧
    cartService.getCartItems userId w = (Ok rows_before, w) ∧
    cartService.getCartItems userId w' = (Ok rows, w') ∧
    Forall (λ row, CartItem.productId (CartItemWithProduct.item row) ≠ productId) rows ∧
    rows = filter (λ row, CartItem.productId (CartItemWithProduct.item row) ≠ productId)
             rows_before.
Proof.
  destruct (stored_after_delete productId w) as (Hproducts & Husers & Hcart).
  unfold after in *. rewrite delete_run in *. simpl in *.
  set (w' := if window_defined w then _ else w) in *.
  eexists w', _, _. split_and!; [done|apply getCartItems_run|apply getCartItems_run| |].
  - rewrite Hproducts, Husers, Hcart. apply Forall_forall.
    intros row (cartItem & _ & Hrow)%list_elem_of_omap Href.
    apply fmap_Some in Hrow as (product & Hfind & ->). simpl in Href.
    rewrite Href, Array_find_filter_same in Hfind. done.
  - rewrite Hproducts, Husers, Hcart.
    induction (filter _ (stored_cart w)) as [|cartItem l IH]; [done|].
    csimpl. destruct (decide (CartItem.productId cartItem = productId)) as [Heq|Hne].
    + assert (Array_find (λ p, Product.id p = CartItem.productId cartItem)
                (filter (λ p, Product.id p ≠ productId) (stored_products w)) = None)
        as -> by (rewrite Heq; apply Array_find_filter_same).
      simpl. rewrite IH.
      destruct (Array_find _ (stored_products w)); simpl; [|done].
      by rewrite filter_cons_False by (simpl; auto).
    + rewrite Array_find_filter_other by done.
      destruct (Array_find _ (stored_products w)); simpl; [|done].
      by rewrite filter_cons_True, IH by done.
Qed.

(** ** Search *)

Lemma append_cons (c : ascii) (a b : string) :
  String.append (String c a) b = String c (String.append a b).
Proof. reflexivity. Qed.

Lemma prefix_spec (q s : string) :
  String.prefix q s = true ↔ ∃ post, s = String.append q post.
Proof.
  revert s. induction q as [|c q IH]; intros s; simpl.
  - split; [intros _; by exists s|intros _; by destruct s].
  - destruct s as [|d s]; simpl; [split; [done|by intros [post ?]]|].
    destruct (Ascii.ascii_dec c d) as [->|Hne].
    + rewrite IH. split; intros [post Hpost]; exists post;
        rewrite append_cons in *; congruence.
    + split; [done|]. intros [post Hpost]. rewrite append_cons in Hpost. congruence.
Qed.

Lemma includes_cons (c : ascii) (s q : string) :
  includes (String c s) q = String.prefix q (String c s) || includes s q.
Proof. reflexivity. Qed.

Lemma includes_spec (s q : string) :
  includes s q = true ↔ ∃ pre post, s = String.append pre (String.append q post).
Proof.
  induction s as [|c s IH].
  - change (includes "" q) with (String.prefix q "" || false).
    rewrite orb_false_r, prefix_spec. split.
    + intros [post Hpost]. by exists "", post.
    + intros (pre & post & Hs). destruct pre; [by exists post|done].
  - rewrite includes_cons, orb_true_iff, prefix_spec, IH. split.
    + intros [[post Hpost]|(pre & post & ->)]; [by exists "", post|].
      by exists (String c pre), post.
    + intros ([|d pre] & post & Hs); [left; by exists post|].
      right. exists pre, post. rewrite append_cons in Hs. congruence.
Qed.

Lemma ASCII_toLowerCase_app (a b : string) :
  ASCII_toLowerCase (String.append a b)
  = String.append (ASCII_toLowerCase a) (ASCII_toLowerCase b).
Proof.
  induction a as [|c a IH]; [done|].
  rewrite append_cons. simpl. by rewrite IH.
Qed.

Lemma ASCII_toLowerCase_split (s a' b' : string) :
  ASCII_toLowerCase s = String.append a' b' →
  ∃ a b, s = String.append a b ∧ ASCII_toLowerCase a = a' ∧ ASCII_toLowerCase b = b'.
Proof.
  revert s. induction a' as [|c a' IH]; intros s Hs.
  - by exists "", s.
  - destruct s as [|d s]; [done|]. simpl in Hs. injection Hs as Hc Hs.
    destruct (IH s Hs) as (a & b & -> & Ha & Hb).
    exists (String d a), b. simpl. by rewrite Hc, Ha.
Qed.

Lemma elem_of_all_ascii (a : ascii) : a ∈ all_ascii.
Proof.
  rewrite <-(ascii_nat_embedding a). apply list_elem_of_fmap_2, elem_of_seq.
  pose proof (nat_ascii_bounded a). lia.
Qed.

(** Two characters have the same lower-case form exactly when they are
    the same up to letter case. *)
Lemma lower_ascii_same (a b : ascii) :
  lower_ascii a = lower_ascii b ↔ same_ignoring_case a b.
Proof.
  assert (Forall (λ cases, lower_ascii cases.1 = cases.2 ∧ lower_ascii cases.2 = cases.2)
            letter_cases) as Hcases.
  { apply (bool_decide_unpack _). vm_compute. exact I. }
  assert (Forall (λ c, lower_ascii c = c ∨ (c, lower_ascii c) ∈ letter_cases) all_ascii)
    as Hlower.
  { apply (bool_decide_unpack _). vm_compute. exact I. }
  assert (Forall (λ c, Forall (λ d, c.2 = d.2 → c.1 = d.1) letter_cases) letter_cases)
    as Hinj.
  { apply (bool_decide_unpack _). vm_compute. exact I. }
  rewrite Forall_forall in Hcases. rewrite Forall_forall in Hlower.
  rewrite Forall_forall in Hinj.
  split.
  - intros Heq.
    destruct (Hlower a (elem_of_all_ascii a)) as [Ha|Ha],
             (Hlower b (elem_of_all_ascii b)) as [Hb|Hb].
    + left. congruence.
    + right. right. by rewrite <-Ha, Heq.
    + right. left. by rewrite <-Hb, <-Heq.
    + left. rewrite Heq in Ha. specialize (Hinj _ Ha). rewrite Forall_forall in Hinj.
      exact (Hinj _ Hb eq_refl).
  - intros [->|[Hab|Hba]]; [done|..].
    + destruct (Hcases _ Hab) as [Ha Hb]. simpl in Ha, Hb. congruence.
    + destruct (Hcases _ Hba) as [Hb Ha]. simpl in Ha, Hb. congruence.
Qed.

Lemma ASCII_toLowerCase_same (s t : string) :
  ASCII_toLowerCase s = ASCII_toLowerCase t ↔ same_text_ignoring_case s t.
Proof.
  unfold same_text_ignoring_case. revert t.
  induction s as [|c s IH]; intros [|d t]; simpl.
  - split; [constructor|done].
  - split; [done|]. by intros ?%Forall2_nil_cons_inv.
  - split; [done|]. by intros ?%Forall2_cons_nil_inv.
  - rewrite Forall2_cons, <-IH, <-lower_ascii_same. split.
    + by intros [= ? ?].
    + by intros [-> ->].
Qed.

Lemma includes_ASCII_toLowerCase (text query : string) :
  includes (ASCII_toLowerCase text) (ASCII_toLowerCase query) = true
  ↔ contains_ignoring_case text query.
Proof.
  rewrite includes_spec. split.
  - intros (pre' & post' & Hlow).
    apply ASCII_toLowerCase_split in Hlow as (pre & rest & -> & _ & Hrest).
    apply ASCII_toLowerCase_split in Hrest as (mid & post & -> & Hmid & _).
    exists pre, mid, post. split; [done|]. by apply ASCII_toLowerCase_same.
  - intros (pre & mid & post & -> & Hmid%ASCII_toLowerCase_same).
    exists (ASCII_toLowerCase pre), (ASCII_toLowerCase post).
    by rewrite !ASCII_toLowerCase_app, Hmid.
Qed.

Lemma contains_ignoring_case_empty (text : string) : contains_ignoring_case text "".
Proof. exists "", "", text. split; [done|]. constructor. Qed.

Lemma category_name_inj (c d : ProductCategory) :
  category_name c = category_name d → c = d.
Proof. by destruct c, d. Qed.

(** With the lower-case letters of ASCII text for [toLowerCase], the
    filter of [search] keeps the rows the specification asks for. *)
Lemma matches_ASCII_spec (query : string) (category : option ProductCategory)
    (row : ProductWithSeller.t) :
  productService.matches ASCII_toLowerCase query (category_name <$> category) row = true
  ↔ search_matches query category row.
Proof.
  unfold productService.matches, search_matches.
  rewrite andb_true_iff, !orb_true_iff, !bool_decide_eq_true, !includes_ASCII_toLowerCase.
  split; intros [Hq Hc]; split.
  - destruct Hq as [[->|?]|?]; auto using contains_ignoring_case_empty.
  - destruct category as [c|]; simpl in Hc; [|done].
    intros ? [= <-]. destruct Hc as [[[?|Hempty]|Hall]|Heq];
      [done|by destruct c|by destruct c|].
    apply category_name_inj. congruence.
  - destruct Hq; auto.
  - destruct category as [c|]; simpl; [|by auto].
    right. by rewrite (Hc c eq_refl).
Qed.



Lemma search_run (query : string) (category : option string) (w : World) :
  productService.search query category w =
  (Ok (filter (λ row, productService.matches (toLowerCase (Unicode_toLowerCase w))
                        query category row = true)
         (Array_sort productService.newest_first
            (productService.withSeller (stored_users w)
               <$> filter (λ p, Product.isAvailable p = true) (stored_products w)))), w).
Proof. reflexivity. Qed.



(** The specification's predicate is decidable. *)
Global Instance search_matches_dec (query : string) (category : option ProductCategory)
    (row : ProductWithSeller.t) : Decision (search_matches query category row).
Proof.
  destruct (productService.matches ASCII_toLowerCase query (category_name <$> category) row)
    eqn:Hm.
  - left. by apply matches_ASCII_spec.
  - right. intros Hs%matches_ASCII_spec. congruence.
Defined.

Example search_jacket :
  Product.title ∘ ProductWithSeller.product
    <$> default [] (match result (productService.search "jacket" None) demo_world with
                    | Ok rows => Some rows
                    | Throw _ => None
                    end)
  = ["Vintage Leather Jacket"].
Proof. vm_compute. reflexivity. Qed.

Example search_in_category :
  Product.title ∘ ProductWithSeller.product
    <$> default [] (match result (productService.search "SET" (Some "home-garden")) demo_world with
                    | Ok rows => Some rows
                    | Throw _ => None
                    end)
  = ["Ceramic Plant Pot Set"].
Proof. vm_compute. reflexivity. Qed.

(** Text that is not ASCII goes through the case mapping of the browser. *)
Example search_cafe :
  let cafe_table :=
    {| Product.id := "table-1"; Product.sellerId := "demo-user-1";
       Product.title := "CAFÉ TABLE"; Product.description := "Round bistro table.";
       Product.price := num 40%float; Product.category := home_garden;
       Product.imageUrl := CATEGORY_PLACEHOLDER_IMAGES home_garden;
       Product.isAvailable := true;
       Product.createdAt := 1757153805000%Z; Product.updatedAt := 1757153805000%Z |} in
  let w := with_localStorage
             (setItem STORAGE_KEYS.products (Some [cafe_table]) (localStorage demo_world))
             demo_world in
  Product.title ∘ ProductWithSeller.product
    <$> default [] (match result (productService.search "café" None) w with
                    | Ok rows => Some rows
                    | Throw _ => None
                    end)
  = ["CAFÉ TABLE"].
Proof. vm_compute. reflexivity. Qed.

(** The string 'all' in place of a category lifts the category filter. *)
Lemma search_all_categories (w : World) (query : string) :
  productService.search query (Some "all") w = productService.search query None w.
Proof. reflexivity. Qed.

(** ** The session manager and storage events *)

Lemma restoreSession_id (p : Page) : restoreSession p = p.
Proof.
  unfold restoreSession.
  destruct (result authService.getCurrentUser (world p)) as [[user|]|]; [|done..].
  by destruct (result authService.isAuthenticated (world p)) as [[|]|].
Qed.

(** The listener changes nothing and calls nobody, whatever the key. *)
Lemma onStorage_id (key : option string) (p : Page) : onStorage key p = p.
Proof. unfold onStorage. case_decide; [apply restoreSession_id|done]. Qed.

(** The path [login] takes does both: it stores the user in the manager
    and calls every subscribed callback with it. *)
Lemma login_notifies :
  (authManager.login "demo@ecofinds.com" "demo123" signed_out_tab).1 = Ok demo_session ∧
  authManager.getCurrentUser
    (authManager.login "demo@ecofinds.com" "demo123" signed_out_tab).2 = Some demo_session ∧
  calls (authManager.login "demo@ecofinds.com" "demo123" signed_out_tab).2
  = [(0, Some demo_session)].
Proof. vm_compute. done. Qed.

(** C2, at the input where it fails: another tab has signed the demo user
    in, so the persisted session is that user; the storage event for the
    session key arrives; the manager's current user is still [null] and no
    subscribed callback was called. *)
Theorem storage_event_leaves_manager_stale :
  result authService.getCurrentUser (world signed_in_elsewhere) = Ok (Some demo_session) ∧
  result authService.isAuthenticated (world signed_in_elsewhere) = Ok true ∧
  AuthManager.listeners (instance signed_in_elsewhere) = [0] ∧
  authManager.getCurrentUser
    (onStorage (Some "ecofinds_current_user") signed_in_elsewhere) = None ∧
  calls (onStorage (Some "ecofinds_current_user") signed_in_elsewhere) = [].
Proof. vm_compute. done. Qed.

(** ** The theorems at concrete inputs *)

Lemma login_invalid_credentials_witness :
  Forall (λ u, User.email u = "demo@ecofinds.com" → User.password u ≠ "demo1234")
    (stored_users demo_world) ∧
  authService.login "demo@ecofinds.com" "demo1234" demo_world
  = (Throw InvalidCredentials, demo_world).
Proof.
  assert (Forall (λ u, User.email u = "demo@ecofinds.com" → User.password u ≠ "demo1234")
            (stored_users demo_world)) as Hwrong.
  { apply (bool_decide_unpack _). vm_compute. exact I. }
  split; [exact Hwrong|].
  exact (proj1 (login_invalid_credentials demo_world "demo@ecofinds.com" "demo1234" Hwrong)).
Defined.


Lemma register_then_login_witness :
  ∃ authUser w1 session authUser' w2,
    authService.register "bob@ecofinds.com" "Bob" "secret1" demo_world = (Ok authUser, w1) ∧
    authService.getCurrentUser w1 = (Ok (Some session), w1) ∧
    AuthUser.email session = "bob@ecofinds.com" ∧ AuthUser.username session = "Bob" ∧
    authService.login "bob@ecofinds.com" "secret1" w1 = (Ok authUser', w2).
Proof.
  apply (register_then_login demo_world "bob@ecofinds.com" "Bob" "secret1").
  - reflexivity.
  - apply (bool_decide_unpack _). vm_compute. exact I.
Defined.

Lemma createPurchase_NotFound_iff_witness :
  sold_lamp ∈ stored_products lamp_shop ∧
  Product.isAvailable sold_lamp = false ∧
  ∃ newPurchase recorded,
    result (purchaseService.createPurchase "demo-user-1" (Product.id sold_lamp) 2%float)
      lamp_shop = Ok newPurchase ∧
    Purchase.status newPurchase = completed ∧
    recorded ∈ stored_purchases
      (after (purchaseService.createPurchase "demo-user-1" (Product.id sold_lamp) 2%float)
         lamp_shop) ∧
    Purchase.id recorded = Purchase.id newPurchase ∧
    Purchase.buyerId recorded = "demo-user-1" ∧
    Purchase.productId recorded = Product.id sold_lamp ∧
    Purchase.status recorded = completed.
Proof.
  assert (sold_lamp ∈ stored_products lamp_shop) as Hin by (vm_compute; left).
  split_and!; [exact Hin|reflexivity|].
  pose proof (createPurchase_NotFound_iff lamp_shop "demo-user-1" (Product.id sold_lamp)
                2%float) as (_ & _ & Hall).
  rewrite Forall_forall in Hall.
  exact (Hall sold_lamp Hin eq_refl).
Defined.

(** A product priced 10.00 bought twice over costs 20.00. *)
Example createPurchase_total_20 :
  Purchase.totalPrice <$>
    stored_purchases
      (after (purchaseService.createPurchase "demo-user-1" "lamp-1" 2%float) lamp_shop)
  = [num 20%float].
Proof. vm_compute. reflexivity. Qed.

Lemma createPurchase_spec_witness :
  ∃ newPurchase w',
    purchaseService.createPurchase "demo-user-1" "lamp-1" 2%float lamp_shop
    = (Ok newPurchase, w') ∧
    Purchase.sellerId newPurchase = "demo-user-1" ∧
    Purchase.totalPrice newPurchase = num 20%float ∧
    Purchase.status newPurchase = completed ∧
    stored_purchases w' = stored_purchases lamp_shop ++ [newPurchase] ∧
    stored_cart w' = filter (λ item, CartItem.id item ≠ "lamp-1") (stored_cart lamp_shop).
Proof.
  assert (Array_find (λ p, Product.id p = "lamp-1") (stored_products lamp_shop)
          = Some sold_lamp) as Hfind by (vm_compute; reflexivity).
  pose proof (createPurchase_spec lamp_shop "demo-user-1" "lamp-1" 2%float) as Hspec.
  rewrite Hfind in Hspec.
  destruct Hspec as (newPurchase & w' & Hrun & _ & _ & _ & Hseller & Htotal & Hstatus
                     & Hpurchases & Hcarried & Hcart & _).
  rewrite (Hcarried eq_refl eq_refl) in Hpurchases.
  exists newPurchase, w'.
  split_and!; [exact Hrun|exact Hseller|exact Htotal|exact Hstatus|exact Hpurchases|exact Hcart].
Defined.


(** The rows [search] returns for a query in upper case, and the only
    product the demo browser lists whose text has 'jacket' in it. *)
Example search_ignores_case :
  Product.title ∘ ProductWithSeller.product
    <$> default [] (match result (productService.search "LEATHER jacket" None) demo_world with
                    | Ok rows => Some rows
                    | Throw _ => None
                    end)
  = ["Vintage Leather Jacket"] ∧
  Product.title ∘ ProductWithSeller.product
    <$> filter (search_matches "JACKET" None)
          (default [] (match result productService.getAll demo_world with
                       | Ok rows => Some rows
                       | Throw _ => None
                       end))
  = ["Vintage Leather Jacket"].
Proof. split; vm_compute; reflexivity. Qed.

(** * Further properties of the data layer *)

(** ** Demo data *)

Lemma initializeDemoData_run (w : World) :
  window_defined w = true →
  stored_users (after initializeDemoData w) ≠ [] ∧
  stored_products (after initializeDemoData w) ≠ [] ∧
  window_defined (after initializeDemoData w) = true.
Proof.
  intros Hwin. destruct w as [wd [us ps cs pus cu tok] ids n clk m low].
  simpl in Hwin. subst wd.
  unfold after, initializeDemoData, seedDemoUsers, seedDemoProducts. run.
  unfold stored_users, stored_products, readStorage. simpl.
  destruct us as [[|u us]|], ps as [[|p ps]|]; simpl; done.
Qed.

Lemma initializeDemoData_noop (w : World) :
  stored_users w ≠ [] → stored_products w ≠ [] → initializeDemoData w = (Ok (), w).
Proof.
  intros Hu Hp. unfold initializeDemoData. run.
  fold (stored_users w) (stored_products w).
  destruct (stored_users w); [done|]. destruct (stored_products w); [done|].
  reflexivity.
Qed.

(** X1: in a browser, once [initializeDemoData] has run there are stored
    users and stored products, and running it again changes nothing. *)
Theorem initializeDemoData_idempotent (w : World) :
  window_defined w = true →
  stored_users (after initializeDemoData w) ≠ [] ∧
  stored_products (after initializeDemoData w) ≠ [] ∧
  initializeDemoData (after initializeDemoData w) = (Ok (), after initializeDemoData w).
Proof.
  intros Hwin. destruct (initializeDemoData_run w Hwin) as (Hu & Hp & _).
  split_and!; [done..|]. by apply initializeDemoData_noop.
Qed.

(** X2: [initializeDemoData] never replaces data: stored users, if there
    are any, stay as they are, and so do stored products; the cart, the
    purchases, the session and the token are never touched. *)
Theorem initializeDemoData_keeps_data (w : World) :
  (stored_users w ≠ [] → stored_users (after initializeDemoData w) = stored_users w) ∧
  (stored_products w ≠ [] →
   stored_products (after initializeDemoData w) = stored_products w) ∧
  ecofinds_cart (localStorage (after initializeDemoData w)) = ecofinds_cart (localStorage w) ∧
  ecofinds_purchases (localStorage (after initializeDemoData w))
  = ecofinds_purchases (localStorage w) ∧
  persisted_session (after initializeDemoData w) = persisted_session w.
Proof.
  destruct w as [wd [us ps cs pus cu tok] ids n clk m low].
  unfold after, initializeDemoData, seedDemoUsers, seedDemoProducts. run.
  unfold stored_users, stored_products, readStorage, persisted_session. simpl.
  destruct wd; simpl; [|done].
  destruct us as [[|u us]|], ps as [[|p ps]|]; simpl; done.
Qed.

(** ** Sessions *)

(** X3: when a stored user has the email and the password, [login] returns
    the password-free projection of such a user; right after it
    [getCurrentUser] returns that projection and [isAuthenticated] is true,
    and no collection has changed. *)
Theorem login_signs_in (w : World) (email password : string) :
  Exists (λ u, User.email u = email ∧ User.password u = password) (stored_users w) →
  ∃ user w',
    authService.login email password w = (Ok (authService.toAuthUser user), w') ∧
    user ∈ stored_users w ∧ User.email user = email ∧ User.password user = password ∧
    authService.getCurrentUser w' = (Ok (Some (authService.toAuthUser user)), w') ∧
    authService.isAuthenticated w' = (Ok true, w') ∧
    stored_users w' = stored_users w ∧ stored_products w' = stored_products w ∧
    stored_cart w' = stored_cart w ∧ stored_purchases w' = stored_purchases w.
Proof.
  intros Hex.
  apply (Array_find_is_Some (λ u, User.email u = email ∧ User.password u = password))
    in Hex as [user Hfind].
  rewrite login_run, Hfind. apply Array_find_Some in Hfind as (Hin & He & Hp).
  pose proof (stored_nonempty_window _ _ _ Hin) as Hwin.
  exists user, (logged_in w user). split_and!; try done.
  all: destruct w as [wd ls ids n clk m low]; simpl in Hwin; subst wd; reflexivity.
Qed.

(** X4: in a browser [logout] returns; afterwards [getCurrentUser] is
    [null] and [isAuthenticated] is false, no collection has changed, and a
    second [logout] changes nothing more. *)
Theorem logout_signs_out (w : World) :
  window_defined w = true →
  ∃ w',
    authService.logout w = (Ok (), w') ∧
    authService.getCurrentUser w' = (Ok None, w') ∧
    authService.isAuthenticated w' = (Ok false, w') ∧
    stored_users w' = stored_users w ∧ stored_products w' = stored_products w ∧
    stored_cart w' = stored_cart w ∧ stored_purchases w' = stored_purchases w ∧
    authService.logout w' = (Ok (), w').
Proof.
  intros Hwin. destruct w as [wd ls ids n clk m low]. simpl in Hwin. subst wd.
  eexists. split_and!; reflexivity.
Qed.

Lemma updateProfile_run (w : World) (userId : string) (updates : User.partial) :
  authService.updateProfile userId updates w =
  match list_find (λ u, User.id u = userId) (stored_users w) with
  | None => (Throw UserNotFound, w)
  | Some (userIndex, user) =>
      let updated :=
        User.with_updatedAt (User.spread user updates) (clock w (clock_reads w)) in
      (Ok (authService.toAuthUser updated),
       {| window_defined := window_defined w;
          localStorage :=
            setItem STORAGE_KEYS.currentUser (Some (authService.toAuthUser updated))
              (setItem STORAGE_KEYS.users
                 (Some (<[userIndex := updated]> (stored_users w))) (localStorage w));
          id_source := id_source w; ids_drawn := ids_drawn w;
          clock := clock w; clock_reads := S (clock_reads w);
          Unicode_toLowerCase := Unicode_toLowerCase w |})
  end.
Proof.
  unfold authService.updateProfile. run. fold (stored_users w).
  destruct (list_find _ (stored_users w)) as [[i user]|] eqn:Hfind; [|done].
  apply list_find_Some in Hfind as (Hin%list_elem_of_lookup_2 & _).
  apply stored_nonempty_window in Hin.
  destruct w as [wd ls ids n clk m low]. simpl in Hin. by subst wd.
Qed.

(** X5: [updateProfile] for an identifier no stored user has throws 'User
    not found' and changes nothing. *)
Theorem updateProfile_not_found (w : World) (userId : string) (updates : User.partial) :
  Forall (λ u, User.id u ≠ userId) (stored_users w) →
  authService.updateProfile userId updates w = (Throw UserNotFound, w).
Proof.
  intros Hno. apply (list_find_None (λ u, User.id u = userId)) in Hno.
  by rewrite updateProfile_run, Hno.
Qed.

(** X6: when a stored user has the identifier, [updateProfile] rewrites the
    first such user, merged with the updates and stamped with the time of
    the call, and leaves every other position of the collection as it was.
    It returns the projection of the rewritten user and persists it as the
    session, whoever was signed in before, without touching the token. *)
Theorem updateProfile_rewrites_first (w : World) (userId : string) (updates : User.partial) :
  Exists (λ u, User.id u = userId) (stored_users w) →
  ∃ i user updated w',
    authService.updateProfile userId updates w
    = (Ok (authService.toAuthUser updated), w') ∧
    stored_users w !! i = Some user ∧ User.id user = userId ∧
    (∀ j u, stored_users w !! j = Some u → j < i → User.id u ≠ userId) ∧
    updated = User.with_updatedAt (User.spread user updates) (clock w (clock_reads w)) ∧
    stored_users w' = <[i := updated]> (stored_users w) ∧
    authService.getCurrentUser w' = (Ok (Some (authService.toAuthUser updated)), w') ∧
    ecofinds_auth_token (localStorage w') = ecofinds_auth_token (localStorage w).
Proof.
  intros Hex.
  assert (is_Some (list_find (λ u, User.id u = userId) (stored_users w)))
    as [[i user] Hfind].
  { apply Exists_exists in Hex as (u & Hin & Hid). by eapply list_find_elem_of. }
  rewrite updateProfile_run, Hfind.
  apply list_find_Some in Hfind as (Hi & Hid & Hfirst).
  pose proof (stored_nonempty_window _ _ _ (list_elem_of_lookup_2 _ _ _ Hi)) as Hwin.
  eexists i, user, _, _. split_and!; [reflexivity|done..| | |].
  all: destruct w as [wd ls ids n clk m low]; simpl in Hwin; subst wd; reflexivity.
Qed.

(** ** Listings *)

Lemma filter_all {A} (P : A → Prop) `{!∀ x, Decision (P x)} (l : list A) :
  Forall P l → filter P l = l.
Proof.
  induction 1 as [|x l Hx _ IH]; [done|]. by rewrite filter_cons_True, IH.
Qed.

Lemma Array_find_app_fresh (products : list Product.t) (product : Product.t) :
  Forall (λ p, Product.id p ≠ Product.id product) products →
  Array_find (λ p, Product.id p = Product.id product) (products ++ [product])
  = Some product.
Proof.
  induction 1 as [|p l Hne _ IH].
  - change ([] ++ [product]) with [product]. rewrite Array_find_cons. by case_decide.
  - change ((p :: l) ++ [product]) with (p :: (l ++ [product])).
    rewrite Array_find_cons. by case_decide.
Qed.

Lemma filter_none {A} (P : A → Prop) `{!∀ x, Decision (P x)} (l : list A) :
  Forall (λ x, ¬ P x) l → filter P l = [].
Proof.
  induction 1 as [|x l Hx _ IH]; [done|]. by rewrite filter_cons_False.
Qed.

Lemma create_run (w : World) (productData : Product.data) :
  window_defined w = true →
  productService.create productData w =
  (Ok (new_product w productData),
   {| window_defined := window_defined w;
      localStorage :=
        setItem STORAGE_KEYS.products
          (Some (Product.as_JSON <$> stored_products w ++ [new_product w productData]))
          (localStorage w);
      id_source := id_source w; ids_drawn := S (ids_drawn w);
      clock := clock w; clock_reads := S (S (clock_reads w));
      Unicode_toLowerCase := Unicode_toLowerCase w |}).
Proof.
  intros Hwin. destruct w as [wd ls ids n clk m low]. simpl in Hwin. by subst wd.
Qed.

(** The collections right after [create] in a browser. *)
Lemma stored_after_create (w : World) (productData : Product.data) :
  window_defined w = true →
  stored_products (after (productService.create productData) w)
  = stored_products w ++ [Product.as_JSON (new_product w productData)] ∧
  stored_users (after (productService.create productData) w) = stored_users w.
Proof.
  intros Hwin. unfold after. rewrite create_run by done. split.
  - unfold stored_products at 1, readStorage. simpl. rewrite Hwin. simpl.
    rewrite fmap_idemp by apply Product_as_JSON_idemp.
    by rewrite fmap_app, (fmap_fixed _ _ (stored_products_as_JSON w)).
  - unfold stored_users, readStorage. simpl. by rewrite Hwin.
Qed.

(** X7: in a browser [create] returns a product with the generated
    identifier and the fields of the form and leaves the users alone; the
    stored products are then the former ones with the new product appended
    as JSON carries it, which is the product itself when its price is a
    number JSON carries (finite, -0 aside); when no stored product already
    has the generated identifier, [getById] of that identifier then returns
    that stored product joined with its seller. *)
Theorem create_then_getById (w : World) (productData : Product.data) :
  window_defined w = true →
  ∃ product w',
    productService.create productData w = (Ok product, w') ∧
    Product.id product = id_source w (ids_drawn w) ∧
    Product.sellerId product = Product.sellerId_ productData ∧
    Product.title product = Product.title_ productData ∧
    Product.description product = Product.description_ productData ∧
    Product.price product = num (Product.price_ productData) ∧
    Product.category product = Product.category_ productData ∧
    Product.imageUrl product = Product.imageUrl_ productData ∧
    Product.isAvailable product = Product.isAvailable_ productData ∧
    stored_products w' = stored_products w ++ [Product.as_JSON product] ∧
    (JSON_carries (Product.price_ productData) → Product.as_JSON product = product) ∧
    stored_users w' = stored_users w ∧
    (Forall (λ p, Product.id p ≠ Product.id product) (stored_products w) →
     productService.getById (Product.id product) w'
     = (Ok (Some (productService.withSeller (stored_users w) (Product.as_JSON product))),
        w')).
Proof.
  intros Hwin. destruct (stored_after_create w productData Hwin) as [Hp Hu].
  unfold after in Hp, Hu. rewrite create_run in Hp, Hu |- * by done. simpl in Hp, Hu.
  set (product := new_product w productData) in *. set (w' := mkWorld _ _ _ _ _ _ _) in *.
  exists product, w'. split_and!; [reflexivity..|exact Hp| |exact Hu|].
  - intros Hprice. unfold Product.as_JSON, product, new_product. simpl. f_equal.
    exact Hprice.
  - intros Hfresh. rewrite getById_run, Hp, Hu.
    by rewrite (Array_find_app_fresh _ (Product.as_JSON product)).
Qed.

Lemma getByUserId_run (userId : string) (w : World) :
  productService.getByUserId userId w =
  (Ok (Array_sort productService.newest_product_first
         (filter (λ p, Product.sellerId p = userId) (stored_products w))), w).
Proof. reflexivity. Qed.

(** X8: in a browser, right after [create] the new product, as JSON
    carries it, is among the listings of its seller, and when the form marks
    it available it is in [getAll]'s result, joined with its seller. *)
Theorem create_then_listed (w : World) (productData : Product.data) :
  window_defined w = true →
  ∃ product w' mine,
    productService.create productData w = (Ok product, w') ∧
    productService.getByUserId (Product.sellerId_ productData) w' = (Ok mine, w') ∧
    Product.as_JSON product ∈ mine ∧
    (Product.isAvailable_ productData = true →
     ∃ listed,
       productService.getAll w' = (Ok listed, w') ∧
       productService.withSeller (stored_users w) (Product.as_JSON product) ∈ listed).
Proof.
  intros Hwin. destruct (stored_after_create w productData Hwin) as [Hp Hu].
  unfold after in Hp, Hu. rewrite create_run in Hp, Hu |- * by done. simpl in Hp, Hu.
  set (product := new_product w productData) in *. set (w' := mkWorld _ _ _ _ _ _ _) in *.
  eexists product, w', _. split_and!; [reflexivity|apply getByUserId_run| |].
  - rewrite Array_sort_perm, Hp, filter_app. apply elem_of_app. right.
    rewrite (filter_singleton_True _ _ []) by done. by apply list_elem_of_singleton.
  - intros Havail. eexists. split; [apply getAll_run|].
    rewrite Array_sort_perm, Hp, Hu, filter_app, fmap_app. apply elem_of_app. right.
    rewrite (filter_singleton_True _ _ []) by done. by apply list_elem_of_singleton.
Qed.

Lemma update_run (w : World) (id : string) (updates : Product.partial) :
  productService.update id updates w =
  match list_find (λ p, Product.id p = id) (stored_products w) with
  | None => (Throw ProductNotFound, w)
  | Some (productIndex, product) =>
      let updated :=
        Product.with_updatedAt (Product.spread product updates) (clock w (clock_reads w)) in
      (Ok updated,
       {| window_defined := window_defined w;
          localStorage :=
            setItem STORAGE_KEYS.products
              (Some (Product.as_JSON <$> <[productIndex := updated]> (stored_products w)))
              (localStorage w);
          id_source := id_source w; ids_drawn := ids_drawn w;
          clock := clock w; clock_reads := S (clock_reads w);
          Unicode_toLowerCase := Unicode_toLowerCase w |})
  end.
Proof.
  unfold productService.update. run. fold (stored_products w).
  destruct (list_find _ (stored_products w)) as [[i product]|] eqn:Hfind; [|done].
  apply list_find_Some in Hfind as (Hin%list_elem_of_lookup_2 & _).
  apply stored_nonempty_window in Hin.
  destruct w as [wd ls ids n clk m low]. simpl in Hin. by subst wd.
Qed.

(** X9: [update] for an identifier no stored product has throws 'Product
    not found' and changes nothing. *)
Theorem update_not_found (w : World) (id : string) (updates : Product.partial) :
  Forall (λ p, Product.id p ≠ id) (stored_products w) →
  productService.update id updates w = (Throw ProductNotFound, w).
Proof.
  intros Hno. apply (list_find_None (λ p, Product.id p = id)) in Hno.
  by rewrite update_run, Hno.
Qed.

(** X10: when a stored product has the identifier, [update] returns the
    first such product merged with the updates and stamped with the time of
    the call, stores it, as JSON carries it, in the same position, and
    leaves every other position, the number of products and the other
    collections as they were. What is stored is the returned product itself
    when the updates set no price or set one JSON carries (finite, -0
    aside). *)
Theorem update_rewrites_first (w : World) (id : string) (updates : Product.partial) :
  Exists (λ p, Product.id p = id) (stored_products w) →
  ∃ i product updated w',
    productService.update id updates w = (Ok updated, w') ∧
    stored_products w !! i = Some product ∧ Product.id product = id ∧
    (∀ j p, stored_products w !! j = Some p → j < i → Product.id p ≠ id) ∧
    updated = Product.with_updatedAt (Product.spread product updates)
                (clock w (clock_reads w)) ∧
    stored_products w' !! i = Some (Product.as_JSON updated) ∧
    ((∀ price, Product.price' updates = Some price → JSON_carries price) →
     Product.as_JSON updated = updated) ∧
    (∀ j, j ≠ i → stored_products w' !! j = stored_products w !! j) ∧
    length (stored_products w') = length (stored_products w) ∧
    stored_users w' = stored_users w ∧ stored_cart w' = stored_cart w ∧
    stored_purchases w' = stored_purchases w.
Proof.
  intros Hex.
  assert (is_Some (list_find (λ p, Product.id p = id) (stored_products w)))
    as [[i product] Hfind].
  { apply Exists_exists in Hex as (p & Hin & Hid). by eapply list_find_elem_of. }
  rewrite update_run, Hfind.
  apply list_find_Some in Hfind as (Hi & Hid & Hfirst).
  pose proof (stored_nonempty_window _ _ _ (list_elem_of_lookup_2 _ _ _ Hi)) as Hwin.
  cbv zeta. set (updated := Product.with_updatedAt _ _). set (w' := mkWorld _ _ _ _ _ _ _).
  assert (stored_products w' = <[i := Product.as_JSON updated]> (stored_products w)) as Hp.
  { unfold stored_products at 1, readStorage. simpl. rewrite Hwin. simpl.
    rewrite fmap_idemp by apply Product_as_JSON_idemp.
    by rewrite list_fmap_insert, (fmap_fixed _ _ (stored_products_as_JSON w)). }
  exists i, product, updated, w'. rewrite Hp.
  split_and!; [reflexivity|done..| | | | | | |].
  - apply list_lookup_insert_eq. by eapply lookup_lt_Some.
  - intros Hprice. unfold Product.as_JSON, updated, Product.with_updatedAt, Product.spread.
    simpl. f_equal. destruct (Product.price' updates) as [price|]; simpl.
    + exact (Hprice price eq_refl).
    + pose proof (stored_products_as_JSON w) as Hfixed.
      rewrite Forall_forall in Hfixed.
      specialize (Hfixed product (list_elem_of_lookup_2 _ _ _ Hi)).
      by apply (f_equal Product.price) in Hfixed.
  - intros j Hj. by apply list_lookup_insert_ne.
  - apply length_insert.
  - unfold stored_users, readStorage. simpl. by rewrite Hwin.
  - unfold stored_cart, readStorage. simpl. by rewrite Hwin.
  - unfold stored_purchases, readStorage. simpl. by rewrite Hwin.
Qed.

(** X11: [delete] returns for every identifier; the stored products are
    then the former ones without every product of that identifier, in
    their order, [getById] of it returns [null], deleting again changes the
    products no more, and when no product had the identifier the products
    are the same as before. *)
Theorem delete_removes_all (w : World) (id : string) :
  ∃ w',
    productService.delete id w = (Ok (), w') ∧
    stored_products w' = filter (λ p, Product.id p ≠ id) (stored_products w) ∧
    productService.getById id w' = (Ok None, w') ∧
    stored_products (after (productService.delete id) w') = stored_products w' ∧
    (Forall (λ p, Product.id p ≠ id) (stored_products w) →
     stored_products w' = stored_products w).
Proof.
  destruct (stored_after_delete id w) as (Hp & _). unfold after in Hp.
  destruct (productService.delete id w) as [r w'] eqn:Hdel.
  rewrite delete_run in Hdel. injection Hdel as <- Hw'. simpl in Hp.
  exists w'. split_and!; [done|done| | |].
  - rewrite getById_run, Hp, Array_find_filter_same. reflexivity.
  - destruct (stored_after_delete id w') as (-> & _). rewrite Hp.
    apply filter_all, Forall_forall. by intros p [? _]%list_elem_of_filter.
  - intros Hno. rewrite Hp. by apply filter_all.
Qed.

(** X12: [getByUserId] returns, without touching the world, exactly the
    stored products of the seller, available or not, from the newest to the
    oldest. *)
Theorem getByUserId_spec (w : World) (userId : string) :
  ∃ mine,
    productService.getByUserId userId w = (Ok mine, w) ∧
    mine ≡ₚ filter (λ p, Product.sellerId p = userId) (stored_products w) ∧
    products_newest_to_oldest mine.
Proof.
  eexists. split; [apply getByUserId_run|]. split.
  - apply Array_sort_perm.
  - unfold products_newest_to_oldest.
    eapply StronglySorted_weaken;
      [|apply (Array_sort_sorted productService.newest_product_first)];
      unfold before, productService.newest_product_first; intros; lia.
Qed.

(** X13: [search] with an empty query and no category, or with the string
    'all' or the empty string as category, returns what [getAll] returns. *)
Theorem search_without_criteria (w : World) :
  productService.search "" None w = productService.getAll w ∧
  productService.search "" (Some "all") w = productService.getAll w ∧
  productService.search "" (Some "") w = productService.getAll w.
Proof.
  assert (∀ (lower : string → string) (category : option string)
            (rows : list ProductWithSeller.t),
            category = None ∨ category = Some "all" ∨ category = Some "" →
            filter (λ row, productService.matches lower "" category row = true) rows = rows)
    as Hall.
  { intros lower category rows Hc. apply filter_all, Forall_forall. intros row _.
    by destruct Hc as [->|[->| ->]]. }
  rewrite !search_run, getAll_run, !Hall by auto. done.
Qed.

(** ** Cart *)

Lemma stored_cart_no_window (w : World) : window_defined w = false → stored_cart w = [].
Proof. unfold stored_cart, readStorage. by intros ->. Qed.

Lemma addToCart_window (w : World) (userId productId : string) (quantity : option float) :
  window_defined (after (cartService.addToCart userId productId quantity) w)
  = window_defined w.
Proof.
  destruct w as [wd ls ids n clk m low]. unfold after, cartService.addToCart. run.
  by destruct wd, (list_find _ _) as [[i existing]|].
Qed.

Lemma cart_pair_as_JSON (cart : list CartItem.t) :
  cart_pair <$> (CartItem.as_JSON <$> cart) = cart_pair <$> cart.
Proof. by rewrite <-list_fmap_compose. Qed.

Lemma stored_cart_with_cart_fixed (cartItems : list CartItem.t) (w : World) :
  window_defined w = true → Forall (λ item, CartItem.as_JSON item = item) cartItems →
  stored_cart (with_cart cartItems w) = cartItems.
Proof. intros Hwin Hfixed. by rewrite stored_cart_with_cart, fmap_fixed. Qed.

(** X14: [addToCart] keeps the cart free of duplicates: if no two stored
    cart items share their (user, product) pair before the call, none do
    after it. *)
Theorem addToCart_keeps_one_item_per_pair (w : World) (userId productId : string)
    (quantity : option float) :
  one_item_per_pair (stored_cart w) →
  one_item_per_pair (stored_cart (after (cartService.addToCart userId productId quantity) w)).
Proof.
  intros Hinv. destruct (window_defined w) eqn:Hwin.
  - unfold after. rewrite addToCart_run by done.
    destruct (list_find _ (stored_cart w)) as [[i existing]|] eqn:Hfind; cbv zeta; simpl.
    + rewrite stored_cart_with_cart by done.
      apply list_find_Some in Hfind as (Hi & [Hu Hp] & _).
      unfold one_item_per_pair.
      rewrite cart_pair_as_JSON, list_fmap_insert, list_insert_id; [done|].
      by rewrite list_lookup_fmap, Hi.
    + rewrite stored_cart_with_cart by done.
      apply list_find_None in Hfind. unfold one_item_per_pair.
      rewrite cart_pair_as_JSON, fmap_app. apply NoDup_app. split_and!; [done| |apply NoDup_singleton].
      intros pair (item & -> & Hin)%list_elem_of_fmap Hnew%list_elem_of_singleton.
      rewrite Forall_forall in Hfind. apply (Hfind item Hin).
      unfold cart_pair in Hnew. simpl in Hnew. injection Hnew as Hu Hp. by split.
  - rewrite stored_cart_no_window; [apply NoDup_nil_2|].
    by rewrite addToCart_window.
Qed.

(** X15: in a browser, when the cart has an item for the pair, [addToCart]
    adds no item: it returns the first item of the pair with its quantity
    increased by the given quantity (by 1 when none is given), stores it, as
    JSON carries it, in the same position and leaves every other position
    as it was. What is stored is the returned item itself when the new
    quantity is a number JSON carries (finite, -0 aside). *)
Theorem addToCart_existing_pair (w : World) (userId productId : string)
    (quantity : option float) :
  window_defined w = true →
  Exists (for_pair userId productId) (stored_cart w) →
  ∃ i existing item w',
    cartService.addToCart userId productId quantity w = (Ok item, w') ∧
    stored_cart w !! i = Some existing ∧ for_pair userId productId existing ∧
    (∀ j other, stored_cart w !! j = Some other → j < i →
                ¬ for_pair userId productId other) ∧
    CartItem.id item = CartItem.id existing ∧ for_pair userId productId item ∧
    CartItem.quantity item
    = num (ToNumber (CartItem.quantity existing) + default 1%float quantity)%float ∧
    stored_cart w' !! i = Some (CartItem.as_JSON item) ∧
    (JSON_carries (ToNumber (CartItem.quantity existing) + default 1%float quantity)%float →
     CartItem.as_JSON item = item) ∧
    (∀ j, j ≠ i → stored_cart w' !! j = stored_cart w !! j) ∧
    length (stored_cart w') = length (stored_cart w).
Proof.
  intros Hwin Hex.
  assert (is_Some (list_find (for_pair userId productId) (stored_cart w)))
    as [[i existing] Hfind].
  { apply Exists_exists in Hex as (item & Hin & Hpair). by eapply list_find_elem_of. }
  rewrite addToCart_run, Hfind by done. cbv zeta.
  apply list_find_Some in Hfind as (Hi & Hpair & Hfirst).
  eexists i, existing, _, _. split; [reflexivity|].
  rewrite stored_cart_with_cart, as_JSON_cart_insert by done.
  split_and!; try done.
  - apply list_lookup_insert_eq. by eapply lookup_lt_Some.
  - intros Hcarried. unfold CartItem.as_JSON, cartService.add_quantity. simpl. f_equal.
    exact Hcarried.
  - intros j Hj. by apply list_lookup_insert_ne.
  - apply length_insert.
Qed.

Lemma updateQuantity_run (w : World) (itemId : string) (quantity : float) :
  cartService.updateQuantity itemId quantity w =
  match list_find (λ item, CartItem.id item = itemId) (stored_cart w) with
  | Some (itemIndex, item) =>
      (Ok (),
       with_cart (if (quantity <=? 0)%float then delete itemIndex (stored_cart w)
                  else <[itemIndex := cartService.set_quantity item quantity]> (stored_cart w))
         w)
  | None => (Ok (), w)
  end.
Proof.
  unfold cartService.updateQuantity. run. fold (stored_cart w).
  destruct (list_find _ (stored_cart w)) as [[i item]|] eqn:Hfind; [|done].
  apply list_find_Some in Hfind as (Hin%list_elem_of_lookup_2 & _).
  apply stored_nonempty_window in Hin. by rewrite Hin.
Qed.

(** X16: [updateQuantity] for an identifier no stored cart item has returns
    without writing anything. *)
Theorem updateQuantity_absent (w : World) (itemId : string) (quantity : float) :
  Forall (λ item, CartItem.id item ≠ itemId) (stored_cart w) →
  cartService.updateQuantity itemId quantity w = (Ok (), w).
Proof.
  intros Hno. apply (list_find_None (λ item, CartItem.id item = itemId)) in Hno.
  by rewrite updateQuantity_run, Hno.
Qed.

Lemma delete_first_unique (cart : list CartItem.t) (i : nat) (item : CartItem.t) :
  NoDup (CartItem.id <$> cart) → cart !! i = Some item →
  delete i cart = filter (λ other, CartItem.id other ≠ CartItem.id item) cart.
Proof.
  revert i. induction cart as [|x l IH]; intros i Hnodup Hi; [done|].
  rewrite fmap_cons in Hnodup. apply NoDup_cons in Hnodup as [Hx Hl].
  destruct i as [|i]; simpl in Hi.
  - injection Hi as ->. simpl. rewrite filter_cons_False by (by intros []).
    symmetry. apply filter_all, Forall_forall. intros other Hin Heq.
    apply Hx. rewrite <-Heq. by apply list_elem_of_fmap_2.
  - assert (CartItem.id x ≠ CartItem.id item) as Hne.
    { intros Heq. apply Hx. rewrite Heq. apply list_elem_of_fmap_2.
      by eapply list_elem_of_lookup_2. }
    simpl. by rewrite filter_cons_True, (IH i) by done.
Qed.

(** X17: when cart item identifiers are unique and a stored item has the
    identifier, [updateQuantity] with a quantity that is zero or less
    removes that item and keeps all the others, in their order. *)
Theorem updateQuantity_nonpositive_removes (w : World) (itemId : string) (quantity : float) :
  NoDup (CartItem.id <$> stored_cart w) →
  Exists (λ item, CartItem.id item = itemId) (stored_cart w) →
  (quantity <=? 0)%float = true →
  ∃ w',
    cartService.updateQuantity itemId quantity w = (Ok (), w') ∧
    stored_cart w' = filter (λ item, CartItem.id item ≠ itemId) (stored_cart w) ∧
    Forall (λ item, CartItem.id item ≠ itemId) (stored_cart w').
Proof.
  intros Hnodup Hex Hle.
  assert (is_Some (list_find (λ item, CartItem.id item = itemId) (stored_cart w)))
    as [[i item] Hfind].
  { apply Exists_exists in Hex as (item & Hin & Hid). by eapply list_find_elem_of. }
  rewrite updateQuantity_run, Hfind, Hle.
  apply list_find_Some in Hfind as (Hi & Hid & _).
  pose proof (stored_nonempty_window _ _ _ (list_elem_of_lookup_2 _ _ _ Hi)) as Hwin.
  eexists. split; [reflexivity|].
  rewrite stored_cart_with_cart_fixed by (by try apply Forall_delete, stored_cart_as_JSON).
  rewrite (delete_first_unique _ _ _ Hnodup Hi), Hid. split; [done|].
  apply Forall_forall. by intros other [? _]%list_elem_of_filter.
Qed.

(** X18: when a stored item has the identifier and the quantity is not
    zero or less, [updateQuantity] sets the quantity of the first such item
    and changes nothing else in the cart. The item is stored as JSON carries
    it: with that quantity when it is a number JSON carries (finite, -0
    aside), with [null] when it is NaN or infinite. *)
Theorem updateQuantity_sets_quantity (w : World) (itemId : string) (quantity : float) :
  Exists (λ item, CartItem.id item = itemId) (stored_cart w) →
  (quantity <=? 0)%float = false →
  ∃ i item w',
    cartService.updateQuantity itemId quantity w = (Ok (), w') ∧
    stored_cart w !! i = Some item ∧ CartItem.id item = itemId ∧
    (∀ j other, stored_cart w !! j = Some other → j < i → CartItem.id other ≠ itemId) ∧
    stored_cart w' !! i = Some (CartItem.as_JSON (cartService.set_quantity item quantity)) ∧
    (JSON_carries quantity →
     CartItem.as_JSON (cartService.set_quantity item quantity)
     = cartService.set_quantity item quantity) ∧
    (∀ j, j ≠ i → stored_cart w' !! j = stored_cart w !! j) ∧
    length (stored_cart w') = length (stored_cart w).
Proof.
  intros Hex Hle.
  assert (is_Some (list_find (λ item, CartItem.id item = itemId) (stored_cart w)))
    as [[i item] Hfind].
  { apply Exists_exists in Hex as (item & Hin & Hid). by eapply list_find_elem_of. }
  rewrite updateQuantity_run, Hfind, Hle.
  apply list_find_Some in Hfind as (Hi & Hid & Hfirst).
  pose proof (stored_nonempty_window _ _ _ (list_elem_of_lookup_2 _ _ _ Hi)) as Hwin.
  eexists i, item, _. split; [reflexivity|].
  rewrite stored_cart_with_cart, as_JSON_cart_insert by done.
  split_and!; try done.
  - apply list_lookup_insert_eq. by eapply lookup_lt_Some.
  - intros Hcarried. unfold CartItem.as_JSON, cartService.set_quantity. simpl. f_equal.
    exact Hcarried.
  - intros j Hj. by apply list_lookup_insert_ne.
  - apply length_insert.
Qed.

Lemma stored_after_clearCart (userId : string) (w : World) :
  cartService.clearCart userId w
  = (Ok (), after (cartService.clearCart userId) w) ∧
  stored_cart (after (cartService.clearCart userId) w)
  = filter (λ item, CartItem.userId item ≠ userId) (stored_cart w) ∧
  stored_users (after (cartService.clearCart userId) w) = stored_users w ∧
  stored_products (after (cartService.clearCart userId) w) = stored_products w.
Proof.
  assert (cartService.clearCart userId w
          = (Ok (), if window_defined w
                    then with_cart (filter (λ item, CartItem.userId item ≠ userId)
                                      (stored_cart w)) w
                    else w)) as Hrun.
  { unfold cartService.clearCart. run. fold (stored_cart w).
    by destruct (window_defined w). }
  unfold after. rewrite Hrun. simpl. split; [done|].
  destruct (window_defined w) eqn:Hwin.
  - rewrite stored_cart_with_cart_fixed
      by (by try apply Forall_filter_keeps, stored_cart_as_JSON).
    split_and!; [done|..].
    + unfold stored_users, readStorage. simpl. by rewrite Hwin.
    + unfold stored_products, readStorage. simpl. by rewrite Hwin.
  - rewrite (stored_cart_no_window w) by done. done.
Qed.

Lemma getCartCount_run (userId : string) (w : World) (rows : list CartItemWithProduct.t) :
  cartService.getCartItems userId w = (Ok rows, w) →
  cartService.getCartCount userId w
  = (Ok (foldl (λ count item,
                  (count + ToNumber (CartItem.quantity (CartItemWithProduct.item item)))%float)
           0%float rows), w) ∧
  cartService.getCartTotal userId w
  = (Ok (foldl (λ total item,
                  (total + ToNumber (Product.price (ProductWithSeller.product
                                                      (CartItemWithProduct.product item)))
                           * ToNumber (CartItem.quantity (CartItemWithProduct.item item)))%float)
           0%float rows), w).
Proof.
  intros Hrows. unfold cartService.getCartCount, cartService.getCartTotal.
  by rewrite !(bind_Ok _ _ _ _ _ Hrows).
Qed.

(** X19: [clearCart] returns for every user; the stored cart is then the
    former one without the user's items; the user's cart view is empty and
    its count and total are 0; the cart view of every other user is what it
    was. *)
Theorem clearCart_empties_user_cart (w : World) (userId : string) :
  ∃ w',
    cartService.clearCart userId w = (Ok (), w') ∧
    stored_cart w' = filter (λ item, CartItem.userId item ≠ userId) (stored_cart w) ∧
    cartService.getCartItems userId w' = (Ok [], w') ∧
    cartService.getCartCount userId w' = (Ok 0%float, w') ∧
    cartService.getCartTotal userId w' = (Ok 0%float, w') ∧
    ∀ other, other ≠ userId →
      result (cartService.getCartItems other) w' = result (cartService.getCartItems other) w.
Proof.
  destruct (stored_after_clearCart userId w) as (Hrun & Hcart & Husers & Hproducts).
  set (w' := after (cartService.clearCart userId) w) in *.
  assert (cartService.getCartItems userId w' = (Ok [], w')) as Hempty.
  { rewrite getCartItems_run, Hcart, list_filter_filter.
    rewrite filter_none; [done|]. apply Forall_forall. by intros item _ [? ?]. }
  exists w'. split_and!; [done..| | |].
  - by destruct (getCartCount_run userId w' [] Hempty) as [-> _].
  - by destruct (getCartCount_run userId w' [] Hempty) as [_ ->].
  - intros other Hother. unfold result.
    rewrite !getCartItems_run, Hcart, Husers, Hproducts, list_filter_filter. simpl.
    do 2 f_equal. apply list_filter_iff. intros item. split; [by intros [? _]|].
    intros Hitem. split; [done|]. congruence.
Qed.

(** X20: every row of [getCartItems] is for a stored cart item of the user,
    carries a stored product whose identifier is the one the item
    references, and the rows follow the order of the stored cart. *)
Theorem getCartItems_rows_sound (w : World) (userId : string) :
  ∃ rows,
    cartService.getCartItems userId w = (Ok rows, w) ∧
    Forall (λ row,
              CartItemWithProduct.item row ∈ stored_cart w ∧
              CartItem.userId (CartItemWithProduct.item row) = userId ∧
              ProductWithSeller.product (CartItemWithProduct.product row)
                ∈ stored_products w ∧
              Product.id (ProductWithSeller.product (CartItemWithProduct.product row))
              = CartItem.productId (CartItemWithProduct.item row)) rows ∧
    CartItemWithProduct.item <$> rows `sublist_of` stored_cart w.
Proof.
  eexists. split; [apply getCartItems_run|]. split.
  - apply Forall_forall. intros row (item & [Huser Hin]%list_elem_of_filter & Hrow)%list_elem_of_omap.
    apply fmap_Some in Hrow as (joined & (product & Hfind & ->)%fmap_Some & ->).
    apply Array_find_Some in Hfind as [Hp Hid]. done.
  - etrans; [|apply (sublist_filter (λ item, CartItem.userId item = userId))].
    induction (filter _ (stored_cart w)) as [|item l IH]; [done|].
    csimpl. destruct (Array_find _ _); simpl.
    + by apply sublist_skip.
    + by apply sublist_cons.
Qed.

Lemma stored_after_removeFromCart (itemId : string) (w : World) :
  cartService.removeFromCart itemId w
  = (Ok (), after (cartService.removeFromCart itemId) w) ∧
  stored_cart (after (cartService.removeFromCart itemId) w)
  = filter (λ item, CartItem.id item ≠ itemId) (stored_cart w).
Proof.
  assert (cartService.removeFromCart itemId w
          = (Ok (), if window_defined w
                    then with_cart (filter (λ item, CartItem.id item ≠ itemId)
                                      (stored_cart w)) w
                    else w)) as Hrun.
  { unfold cartService.removeFromCart. run. fold (stored_cart w).
    by destruct (window_defined w). }
  unfold after. rewrite Hrun. simpl. split; [done|].
  destruct (window_defined w) eqn:Hwin.
  - by rewrite stored_cart_with_cart_fixed
      by (by try apply Forall_filter_keeps, stored_cart_as_JSON).
  - by rewrite (stored_cart_no_window w) by done.
Qed.

(** [removeFromCart] returns for every identifier; the stored cart is
    then the former one without the items of that identifier, removing
    again changes the cart no more, and when no item had the identifier the
    cart is the same as before. *)
Theorem removeFromCart_removes (w : World) (itemId : string) :
  ∃ w',
    cartService.removeFromCart itemId w = (Ok (), w') ∧
    stored_cart w' = filter (λ item, CartItem.id item ≠ itemId) (stored_cart w) ∧
    stored_cart (after (cartService.removeFromCart itemId) w') = stored_cart w' ∧
    (Forall (λ item, CartItem.id item ≠ itemId) (stored_cart w) →
     stored_cart w' = stored_cart w).
Proof.
  destruct (stored_after_removeFromCart itemId w) as (Hrun & Hcart).
  exists (after (cartService.removeFromCart itemId) w). split_and!; [done..| |].
  - destruct (stored_after_removeFromCart itemId
                (after (cartService.removeFromCart itemId) w)) as (_ & ->).
    rewrite Hcart. apply filter_all, Forall_forall.
    by intros item [? _]%list_elem_of_filter.
  - intros Hno. rewrite Hcart. by apply filter_all.
Qed.

(** ** Purchase history *)

(** The rows before sorting. *)
Lemma getPurchaseHistory_run (userId : string) (w : World) :
  purchaseService.getPurchaseHistory userId w =
  (Ok (Array_sort purchaseService.newest_purchase_first
         (omap (λ purchase,
                  history_row (stored_users w) purchase
                    <$> Array_find (λ p, Product.id p = Purchase.productId purchase)
                          (stored_products w))
            (filter (λ purchase, Purchase.buyerId purchase = userId)
               (stored_purchases w)))), w).
Proof.
  unfold purchaseService.getPurchaseHistory. run.
  fold (stored_purchases w) (stored_users w) (stored_products w).
  do 3 f_equal.
  induction (filter _ (stored_purchases w)) as [|purchase l IH]; [done|].
  csimpl. rewrite IH. by destruct (Array_find _ (stored_products w)).
Qed.

Lemma history_row_elem_of (w : World) (userId : string) (row : PurchaseWithDetails.t) :
  row ∈ omap (λ purchase,
                history_row (stored_users w) purchase
                  <$> Array_find (λ p, Product.id p = Purchase.productId purchase)
                        (stored_products w))
          (filter (λ purchase, Purchase.buyerId purchase = userId) (stored_purchases w))
  ↔ ∃ purchase product,
      purchase ∈ stored_purchases w ∧ Purchase.buyerId purchase = userId ∧
      Array_find (λ p, Product.id p = Purchase.productId purchase) (stored_products w)
      = Some product ∧
      row = history_row (stored_users w) purchase product.
Proof.
  rewrite list_elem_of_omap. split.
  - intros (purchase & [Hbuyer Hin]%list_elem_of_filter & Hrow).
    apply fmap_Some in Hrow as (product & Hfind & ->). by exists purchase, product.
  - intros (purchase & product & Hin & Hbuyer & Hfind & ->).
    exists purchase. split; [by apply list_elem_of_filter|]. by rewrite Hfind.
Qed.

(** X21: [getPurchaseHistory] returns, without touching the world, one row
    for each stored purchase of the buyer whose product still resolves and
    none for the others: each row carries the first stored product with the
    purchase's product identifier and the seller summary, and the rows go
    from the newest purchase to the oldest. *)
Theorem getPurchaseHistory_spec (w : World) (userId : string) :
  ∃ rows,
    purchaseService.getPurchaseHistory userId w = (Ok rows, w) ∧
    (∀ row, row ∈ rows ↔
       ∃ purchase product,
         purchase ∈ stored_purchases w ∧ Purchase.buyerId purchase = userId ∧
         Array_find (λ p, Product.id p = Purchase.productId purchase) (stored_products w)
         = Some product ∧
         row = history_row (stored_users w) purchase product) ∧
    PurchaseWithDetails.purchase <$> rows
      ≡ₚ filter (λ purchase,
                   Purchase.buyerId purchase = userId ∧
                   Exists (λ p, Product.id p = Purchase.productId purchase)
                     (stored_products w))
           (stored_purchases w) ∧
    purchases_newest_to_oldest rows.
Proof.
  eexists. split; [apply getPurchaseHistory_run|]. split_and!.
  - intros row. rewrite Array_sort_perm. apply history_row_elem_of.
  - rewrite Array_sort_perm.
    induction (stored_purchases w) as [|purchase l IH]; [done|].
    rewrite (filter_cons (λ purchase, Purchase.buyerId purchase = userId)).
    destruct (decide (Purchase.buyerId purchase = userId)) as [Hbuyer|Hbuyer].
    + csimpl. destruct (Array_find _ (stored_products w)) as [product|] eqn:Hfind.
      * csimpl. rewrite filter_cons_True; [by rewrite IH|]. split; [done|].
        apply (Array_find_is_Some (λ p, Product.id p = Purchase.productId purchase)).
        by rewrite Hfind.
      * csimpl. rewrite filter_cons_False; [done|]. intros [_ Hex].
        apply (Array_find_is_Some (λ p, Product.id p = Purchase.productId purchase))
          in Hex.
        rewrite Hfind in Hex. by destruct Hex.
    + rewrite filter_cons_False; [done|]. by intros [? _].
  - unfold purchases_newest_to_oldest.
    eapply StronglySorted_weaken;
      [|apply (Array_sort_sorted purchaseService.newest_purchase_first)];
      unfold before, purchaseService.newest_purchase_first; intros; lia.
Qed.

(** X22: when a product resolves, the purchase [createPurchase] records
    (the returned one, as JSON carries it) is in the buyer's history right
    after, in a row that carries that product and the summary of its
    seller. *)
Theorem createPurchase_then_history (w : World) (buyerId productId : string)
    (quantity : float) (product : Product.t) :
  Array_find (λ p, Product.id p = productId) (stored_products w) = Some product →
  ∃ newPurchase w' rows,
    purchaseService.createPurchase buyerId productId quantity w = (Ok newPurchase, w') ∧
    purchaseService.getPurchaseHistory buyerId w' = (Ok rows, w') ∧
    {| PurchaseWithDetails.purchase := Purchase.as_JSON newPurchase;
       PurchaseWithDetails.product := product;
       PurchaseWithDetails.seller :=
         ProductWithSeller.seller (productService.withSeller (stored_users w) product) |}
    ∈ rows.
Proof.
  intros Hfind. rewrite createPurchase_run, Hfind. cbv zeta.
  set (newPurchase := Purchase.mk _ _ _ _ _ _ _ _).
  set (w' := purchased w newPurchase productId).
  pose proof (proj1 (Array_find_Some _ _ _ Hfind)) as Hin.
  pose proof (stored_nonempty_window _ _ _ Hin) as Hwin.
  destruct (stored_purchased w newPurchase productId Hwin) as (Hpu & _ & Hpr & Hus).
  fold w' in Hpu, Hpr, Hus.
  eexists newPurchase, w', _. split_and!; [reflexivity|apply getPurchaseHistory_run|].
  rewrite Array_sort_perm. apply history_row_elem_of.
  exists (Purchase.as_JSON newPurchase), product. rewrite Hpu, Hpr, Hus.
  split_and!; [|done..].
  apply elem_of_app. right. by apply list_elem_of_singleton.
Qed.

(** X23: when a product resolves and no stored cart item has the product's
    identifier as its own identifier, [createPurchase] leaves the items of
    the cart as they were, the buyer's item for that product included. *)
Theorem createPurchase_keeps_cart (w : World) (buyerId productId : string)
    (quantity : float) :
  Exists (λ p, Product.id p = productId) (stored_products w) →
  Forall (λ item, CartItem.id item ≠ productId) (stored_cart w) →
  ∃ newPurchase w',
    purchaseService.createPurchase buyerId productId quantity w = (Ok newPurchase, w') ∧
    stored_cart w' = stored_cart w.
Proof.
  intros Hex Hno.
  apply (Array_find_is_Some (λ p, Product.id p = productId)) in Hex as [product Hfind].
  rewrite createPurchase_run, Hfind. cbv zeta.
  pose proof (stored_nonempty_window _ _ _ (proj1 (Array_find_Some _ _ _ Hfind))) as Hwin.
  eexists _, _. split; [reflexivity|].
  destruct (stored_purchased w (Purchase.mk (id_source w (ids_drawn w)) buyerId
                                  (Product.sellerId product) productId (num quantity)
                                  (num (ToNumber (Product.price product) * quantity)%float)
                                  (clock w (clock_reads w)) completed)
              productId Hwin) as (_ & -> & _).
  by apply filter_all.
Qed.

(** ** The session manager *)


(** X25: in a browser [authManager.logout] returns, clears the manager's
    current user and calls every subscribed callback once with [null]; the
    manager is then not authenticated and [requireAuth] throws
    'Authentication required'. *)
Theorem manager_logout (p : Page) :
  window_defined (world p) = true →
  ∃ p',
    authManager.logout p = (Ok (), p') ∧
    authManager.getCurrentUser p' = None ∧
    calls p' = calls p ++ notifications p None ∧
    authManager.isAuthenticated p' = Ok false ∧
    authManager.requireAuth p' = Throw AuthenticationRequired.
Proof.
  intros Hwin. destruct p as [[wd ls ids n clk m low] mgr cs].
  simpl in Hwin. subst wd. eexists. split_and!; reflexivity.
Qed.

(** X26: subscribing a callback twice is subscribing it once, so it is
    called once per notification; [subscribe] keeps the listeners free of
    repeats; after the returned unsubscribe function has run the callback
    is no longer a listener, and the other listeners are as before. *)
Theorem subscribe_once (p : Page) (callback : Listener) :
  authManager.subscribe callback (authManager.subscribe callback p)
  = authManager.subscribe callback p ∧
  callback ∈ AuthManager.listeners (instance (authManager.subscribe callback p)) ∧
  (NoDup (AuthManager.listeners (instance p)) →
   NoDup (AuthManager.listeners (instance (authManager.subscribe callback p)))) ∧
  (callback ∉ AuthManager.listeners
                (instance (authManager.unsubscribe callback
                             (authManager.subscribe callback p)))) ∧
  (callback ∉ AuthManager.listeners (instance p) →
   authManager.unsubscribe callback (authManager.subscribe callback p) = p).
Proof.
  destruct p as [w [user listeners] cs]. unfold authManager.subscribe, authManager.unsubscribe.
  simpl. split_and!.
  - destruct (decide (callback ∈ listeners)) as [Hin|Hin]; simpl.
    + by rewrite decide_True.
    + rewrite decide_True; [done|]. apply elem_of_app. right. by apply list_elem_of_singleton.
  - case_decide; [done|]. apply elem_of_app. right. by apply list_elem_of_singleton.
  - intros Hnodup. case_decide as Hin; [done|].
    apply NoDup_app. split_and!; [done| |apply NoDup_singleton].
    by intros l Hl ->%list_elem_of_singleton.
  - by intros [? _]%list_elem_of_filter.
  - intros Hnot. rewrite decide_False by done. do 2 f_equal.
    rewrite filter_app, (filter_singleton_False _ _ []) by (intros Hne; by apply Hne).
    rewrite app_nil_r. apply filter_all, Forall_forall. by intros l Hl ->.
Qed.


(** X28: when [requireAuth] returns, what it returns is never [null]: it is
    the manager's current user, and a session projection and a token are
    persisted. *)
Theorem requireAuth_returns_user (p : Page) (returned : option AuthUser.t) :
  authManager.requireAuth p = Ok returned →
  ∃ user,
    returned = Some user ∧ authManager.getCurrentUser p = Some user ∧
    is_Some (ecofinds_current_user (localStorage (world p))) ∧
    is_Some (ecofinds_auth_token (localStorage (world p))).
Proof.
  destruct p as [[wd [us ps cs pus cu tok] ids n clk m low] [user listeners] called].
  unfold authManager.requireAuth, authManager.isAuthenticated, authManager.getCurrentUser.
  unfold result, authService.isAuthenticated, authService.getCurrentUser, localStorage_getItem.
  run. destruct wd, tok as [token|], cu as [session|], user as [user|]; simpl; try done.
  intros [= <-]. by exists user.
Qed.

(** ** Clearing user data and reporting errors *)

(** X29: in a browser [clearUserData] returns and keeps the stored users
    and products; the cart and the purchases are then empty, no session is
    persisted and [isAuthenticated] is false. *)
Theorem clearUserData_keeps_users_and_products (w : World) :
  window_defined w = true →
  ∃ w',
    clearUserData w = (Ok (), w') ∧
    stored_users w' = stored_users w ∧ stored_products w' = stored_products w ∧
    stored_cart w' = [] ∧ stored_purchases w' = [] ∧
    authService.getCurrentUser w' = (Ok None, w') ∧
    authService.isAuthenticated w' = (Ok false, w').
Proof.
  intros Hwin. destruct w as [wd [us ps cs pus cu tok] ids n clk m low].
  simpl in Hwin. subst wd. eexists. split_and!; reflexivity.
Qed.

Lemma register_throws (w : World) (email username password : string) (e : Error) :
  result (authService.register email username password) w = Throw e →
  e = DuplicateEmail ∨ e = DuplicateUsername.
Proof.
  unfold result. destruct (window_defined w) eqn:Hwin.
  - rewrite register_run by done. repeat case_decide; simpl; intros [= <-]; auto.
  - destruct w as [wd ls ids n clk m low]. simpl in Hwin. subst wd.
    unfold authService.register. run. repeat case_decide; simpl; intros [= <-]; auto.
Qed.

(** X30: whatever [login] throws, [handleAuthError] turns into 'Invalid
    email or password. Please try again.'; whatever [register] throws, into
    the message about the email for a taken email and the message about the
    username for a taken username; and what [updateProfile] throws keeps
    its own message, 'User not found'. *)
Theorem handleAuthError_of_auth_failures (w : World) (email username password userId : string)
    (updates : User.partial) (e : Error) :
  (result (authService.login email password) w = Throw e →
   handleAuthError (an_Error e) = "Invalid email or password. Please try again.") ∧
  (result (authService.register email username password) w = Throw e →
   (e = DuplicateEmail ∧
    handleAuthError (an_Error e)
    = "An account with this email already exists. Please login instead.") ∨
   (e = DuplicateUsername ∧
    handleAuthError (an_Error e)
    = "This username is already taken. Please choose another.")) ∧
  (result (authService.updateProfile userId updates) w = Throw e →
   handleAuthError (an_Error e) = "User not found").
Proof.
  split_and!.
  - unfold result. rewrite login_run.
    destruct (Array_find _ _); simpl; [done|]. by intros [= <-].
  - intros [->| ->]%register_throws; [left|right]; split; reflexivity.
  - unfold result. rewrite updateProfile_run.
    destruct (list_find _ _) as [[i user]|]; simpl; [done|]. by intros [= <-].
Qed.

(** ** The further properties at concrete inputs *)

Lemma initializeDemoData_idempotent_witness :
  stored_users (after initializeDemoData fresh_browser) ≠ [] ∧
  stored_products (after initializeDemoData fresh_browser) ≠ [] ∧
  initializeDemoData (after initializeDemoData fresh_browser)
  = (Ok (), after initializeDemoData fresh_browser).
Proof. apply initializeDemoData_idempotent. reflexivity. Defined.

Lemma login_signs_in_witness :
  ∃ user w',
    authService.login "demo@ecofinds.com" "demo123" demo_world
    = (Ok (authService.toAuthUser user), w') ∧
    user ∈ stored_users demo_world ∧
    User.email user = "demo@ecofinds.com" ∧ User.password user = "demo123" ∧
    authService.getCurrentUser w' = (Ok (Some (authService.toAuthUser user)), w') ∧
    authService.isAuthenticated w' = (Ok true, w') ∧
    stored_users w' = stored_users demo_world ∧
    stored_products w' = stored_products demo_world ∧
    stored_cart w' = stored_cart demo_world ∧
    stored_purchases w' = stored_purchases demo_world.
Proof.
  apply login_signs_in. apply (bool_decide_unpack _). vm_compute. exact I.
Defined.

Lemma logout_signs_out_witness :
  ∃ w',
    authService.logout demo_world = (Ok (), w') ∧
    authService.getCurrentUser w' = (Ok None, w') ∧
    authService.isAuthenticated w' = (Ok false, w') ∧
    stored_users w' = stored_users demo_world ∧
    stored_products w' = stored_products demo_world ∧
    stored_cart w' = stored_cart demo_world ∧
    stored_purchases w' = stored_purchases demo_world ∧
    authService.logout w' = (Ok (), w').
Proof. apply logout_signs_out. reflexivity. Defined.

Lemma updateProfile_not_found_witness :
  authService.updateProfile "nobody" take_username demo_world
  = (Throw UserNotFound, demo_world).
Proof.
  apply updateProfile_not_found. apply (bool_decide_unpack _). vm_compute. exact I.
Defined.

Lemma updateProfile_rewrites_first_witness :
  ∃ i user updated w',
    authService.updateProfile "id" take_username two_accounts
    = (Ok (authService.toAuthUser updated), w') ∧
    stored_users two_accounts !! i = Some user ∧ User.id user = "id" ∧
    (∀ j u, stored_users two_accounts !! j = Some u → j < i → User.id u ≠ "id") ∧
    updated = User.with_updatedAt (User.spread user take_username)
                (clock two_accounts (clock_reads two_accounts)) ∧
    stored_users w' = <[i := updated]> (stored_users two_accounts) ∧
    authService.getCurrentUser w' = (Ok (Some (authService.toAuthUser updated)), w') ∧
    ecofinds_auth_token (localStorage w') = ecofinds_auth_token (localStorage two_accounts).
Proof.
  apply updateProfile_rewrites_first. apply (bool_decide_unpack _). vm_compute. exact I.
Defined.

Lemma create_then_getById_witness :
  ∃ product w',
    productService.create teapot demo_world = (Ok product, w') ∧
    Product.title product = "Cast Iron Teapot" ∧
    Product.price product = num 18.5%float ∧
    stored_products w' = stored_products demo_world ++ [product] ∧
    stored_users w' = stored_users demo_world ∧
    productService.getById (Product.id product) w'
    = (Ok (Some (productService.withSeller (stored_users demo_world) product)), w').
Proof.
  destruct (create_then_getById demo_world teapot eq_refl)
    as (product & w' & Hrun & Hid & _ & Htitle & _ & Hprice & _ & _ & _ & Hproducts
        & Hcarried & Husers & Hget).
  rewrite (Hcarried eq_refl) in Hproducts, Hget.
  exists product, w'.
  split_and!; [exact Hrun|exact Htitle|exact Hprice|exact Hproducts|exact Husers|].
  apply Hget. rewrite Hid. apply (bool_decide_unpack _). vm_compute. exact I.
Defined.

Lemma create_then_listed_witness :
  ∃ product w' mine,
    productService.create teapot demo_world = (Ok product, w') ∧
    productService.getByUserId (Product.sellerId_ teapot) w' = (Ok mine, w') ∧
    Product.as_JSON product ∈ mine ∧
    (Product.isAvailable_ teapot = true →
     ∃ listed,
       productService.getAll w' = (Ok listed, w') ∧
       productService.withSeller (stored_users demo_world) (Product.as_JSON product)
       ∈ listed).
Proof. apply create_then_listed. reflexivity. Defined.

Lemma update_not_found_witness :
  productService.update "nothing" price_cut demo_world = (Throw ProductNotFound, demo_world).
Proof.
  apply update_not_found. apply (bool_decide_unpack _). vm_compute. exact I.
Defined.

Lemma update_rewrites_first_witness :
  ∃ i product updated w',
    productService.update "demo-product-1" price_cut demo_world = (Ok updated, w') ∧
    stored_products demo_world !! i = Some product ∧ Product.id product = "demo-product-1" ∧
    Product.price updated = num 60%float ∧
    stored_products w' !! i = Some updated ∧
    (∀ j, j ≠ i → stored_products w' !! j = stored_products demo_world !! j) ∧
    length (stored_products w') = length (stored_products demo_world).
Proof.
  assert (Exists (λ p, Product.id p = "demo-product-1") (stored_products demo_world)) as Hex.
  { apply (bool_decide_unpack _). vm_compute. exact I. }
  destruct (update_rewrites_first demo_world "demo-product-1" price_cut Hex)
    as (i & product & updated & w' & Hrun & Hi & Hid & _ & Hupdated & Hstored & Hcarried
        & Hothers & Hlength & _).
  rewrite Hcarried in Hstored by (by intros price [= <-]).
  exists i, product, updated, w'.
  split_and!; [exact Hrun|exact Hi|exact Hid| |exact Hstored|exact Hothers|exact Hlength].
  by rewrite Hupdated.
Defined.

Lemma addToCart_keeps_one_item_per_pair_witness :
  one_item_per_pair
    (stored_cart (after (cartService.addToCart "demo-user-1" "demo-product-3" None)
                    pots_in_cart)).
Proof.
  apply addToCart_keeps_one_item_per_pair.
  apply (bool_decide_unpack _). vm_compute. exact I.
Defined.

Lemma addToCart_existing_pair_witness :
  ∃ i existing item w',
    cartService.addToCart "demo-user-1" "demo-product-3" None pots_in_cart
    = (Ok item, w') ∧
    stored_cart pots_in_cart !! i = Some existing ∧
    CartItem.quantity existing = num 2%float ∧
    CartItem.quantity item = num 3%float ∧
    stored_cart w' !! i = Some item ∧
    length (stored_cart w') = length (stored_cart pots_in_cart).
Proof.
  assert (Exists (for_pair "demo-user-1" "demo-product-3") (stored_cart pots_in_cart))
    as Hex.
  { apply (bool_decide_unpack _). vm_compute. exact I. }
  destruct (addToCart_existing_pair pots_in_cart "demo-user-1" "demo-product-3" None
              eq_refl Hex)
    as (i & existing & item & w' & Hrun & Hi & _ & _ & _ & _ & Hquantity & Hstored
        & Hcarried & _ & Hlength).
  assert (CartItem.quantity existing = num 2%float) as Hexisting.
  { assert (CartItem.quantity <$> stored_cart pots_in_cart = [num 2%float]) as Hall
      by (vm_compute; reflexivity).
    pose proof (f_equal (fmap CartItem.quantity) Hi) as Hq.
    rewrite <-list_lookup_fmap, Hall in Hq. clear -Hq.
    by destruct i as [|[|i]]; simplify_eq/=. }
  rewrite Hexisting in Hquantity, Hcarried.
  rewrite (Hcarried eq_refl) in Hstored.
  exists i, existing, item, w'.
  split_and!; [exact Hrun|exact Hi|exact Hexisting|exact Hquantity|exact Hstored|exact Hlength].
Defined.

Lemma updateQuantity_absent_witness :
  cartService.updateQuantity "nothing" 1%float pots_in_cart = (Ok (), pots_in_cart).
Proof.
  apply updateQuantity_absent. apply (bool_decide_unpack _). vm_compute. exact I.
Defined.

Lemma updateQuantity_nonpositive_removes_witness :
  ∃ w',
    cartService.updateQuantity "id" 0%float pots_in_cart = (Ok (), w') ∧
    stored_cart w' = filter (λ item, CartItem.id item ≠ "id") (stored_cart pots_in_cart) ∧
    Forall (λ item, CartItem.id item ≠ "id") (stored_cart w').
Proof.
  apply updateQuantity_nonpositive_removes.
  - apply (bool_decide_unpack _). vm_compute. exact I.
  - apply (bool_decide_unpack _). vm_compute. exact I.
  - reflexivity.
Defined.

Lemma updateQuantity_sets_quantity_witness :
  ∃ i item w',
    cartService.updateQuantity "id" 5%float pots_in_cart = (Ok (), w') ∧
    stored_cart pots_in_cart !! i = Some item ∧ CartItem.id item = "id" ∧
    stored_cart w' !! i = Some (cartService.set_quantity item 5%float) ∧
    (∀ j, j ≠ i → stored_cart w' !! j = stored_cart pots_in_cart !! j) ∧
    length (stored_cart w') = length (stored_cart pots_in_cart).
Proof.
  assert (Exists (λ item, CartItem.id item = "id") (stored_cart pots_in_cart)) as Hex.
  { apply (bool_decide_unpack _). vm_compute. exact I. }
  destruct (updateQuantity_sets_quantity pots_in_cart "id" 5%float Hex eq_refl)
    as (i & item & w' & Hrun & Hi & Hid & _ & Hstored & Hcarried & Hothers & Hlength).
  rewrite (Hcarried eq_refl) in Hstored.
  exists i, item, w'.
  split_and!; [exact Hrun|exact Hi|exact Hid|exact Hstored|exact Hothers|exact Hlength].
Defined.

Lemma createPurchase_then_history_witness :
  ∃ newPurchase w' rows,
    purchaseService.createPurchase "demo-user-1" "lamp-1" 2%float lamp_shop
    = (Ok newPurchase, w') ∧
    purchaseService.getPurchaseHistory "demo-user-1" w' = (Ok rows, w') ∧
    {| PurchaseWithDetails.purchase := Purchase.as_JSON newPurchase;
       PurchaseWithDetails.product := sold_lamp;
       PurchaseWithDetails.seller :=
         ProductWithSeller.seller
           (productService.withSeller (stored_users lamp_shop) sold_lamp) |}
    ∈ rows.
Proof. apply createPurchase_then_history. vm_compute. reflexivity. Defined.

Lemma createPurchase_keeps_cart_witness :
  ∃ newPurchase w',
    purchaseService.createPurchase "demo-user-1" "demo-product-3" 2%float pots_in_cart
    = (Ok newPurchase, w') ∧
    stored_cart w' = stored_cart pots_in_cart.
Proof.
  apply createPurchase_keeps_cart.
  - apply (bool_decide_unpack _). vm_compute. exact I.
  - apply (bool_decide_unpack _). vm_compute. exact I.
Defined.

Lemma manager_logout_witness :
  ∃ p',
    authManager.logout signed_in_tab = (Ok (), p') ∧
    authManager.getCurrentUser p' = None ∧
    calls p' = calls signed_in_tab ++ notifications signed_in_tab None ∧
    authManager.isAuthenticated p' = Ok false ∧
    authManager.requireAuth p' = Throw AuthenticationRequired.
Proof. apply manager_logout. reflexivity. Defined.


Lemma requireAuth_returns_user_witness :
  ∃ user,
    Some demo_session = Some user ∧ authManager.getCurrentUser signed_in_tab = Some user ∧
    is_Some (ecofinds_current_user (localStorage (world signed_in_tab))) ∧
    is_Some (ecofinds_auth_token (localStorage (world signed_in_tab))).
Proof. apply requireAuth_returns_user. vm_compute. reflexivity. Defined.

Lemma clearUserData_keeps_users_and_products_witness :
  ∃ w',
    clearUserData pots_in_cart = (Ok (), w') ∧
    stored_users w' = stored_users pots_in_cart ∧
    stored_products w' = stored_products pots_in_cart ∧
    stored_cart w' = [] ∧ stored_purchases w' = [] ∧
    authService.getCurrentUser w' = (Ok None, w') ∧
    authService.isAuthenticated w' = (Ok false, w').
Proof. apply clearUserData_keeps_users_and_products. reflexivity. Defined.
